(** * Stock-Analyzer: the metrics engine (utils.py) and the persistence
      layer (database.py), embedded and checked against the specification.

    Numbers are IEEE binary64 values, as the floats of Python and numpy
    are: Rocq's primitive [float] with its division, subtraction,
    multiplication, square root and comparisons.  The integer literal [0]
    that the source stores in a metric is the float [0].

    Exceptions are values: a computation that may raise returns a
    [result]. *)

From stdpp Require Import gmap strings list.
From Stdlib Require Import ZArith Floats.

(** ** Python exceptions and fallible results *)

Inductive exn : Type :=
  | IndexError        (* single positional indexer is out-of-bounds *)
  | KeyError          (* the frame has no column of that name *)
  | OperationalError  (* the storage could not be reached or used *)
  | IntegrityError    (* a UNIQUE or NOT NULL constraint failed *)
  | CompileError      (* a statement names a column the table lacks, or
                         an UPDATE sets none *)
  | StatementError.   (* a parameter the driver refuses to bind *)

Inductive result (A : Type) : Type :=
  | Ok (a : A)
  | Raise (e : exn).
Arguments Ok {A} a.
Arguments Raise {A} e.

Definition bind {A B} (r : result A) (k : A -> result B) : result B :=
  match r with
  | Ok a => k a
  | Raise e => Raise e
  end.

Declare Scope result_scope.
Delimit Scope result_scope with result.
Notation "x <- r ;; k" := (bind r (fun x => k))
  (at level 100, r at next level, right associativity) : result_scope.

(** ** utils.py *)

Module Utils.
Local Open Scope float_scope.
Local Open Scope result_scope.

(** The index of the frame: the calendar date of a bar.  The source
    compares it with midnight of January 1, so the time of day of a bar
    never decides the comparison and is left out. *)
Record Timestamp : Type := mkTimestamp { year : Z; month : Z; day : Z }.

(** [df.index >= start_of_year]: dates compare field by field. *)
Definition timestamp_geb (a b : Timestamp) : bool :=
  ((year b <? year a) ||
   ((year a =? year b) &&
    ((month b <? month a) ||
     ((month a =? month b) && (day b <=? day a)))))%Z.

(** [datetime(current_year, 1, 1)] *)
Definition start_of_year (current_year : Z) : Timestamp :=
  mkTimestamp current_year 1 1.

(** A row of the price frame: its index entry and its 'Close' column (the
    other OHLCV columns are never read by the metrics). *)
Record Bar : Type := mkBar { date : Timestamp; Close : float }.

Definition DataFrame : Type := list Bar.

Definition len {A} (s : list A) : Z := Z.of_nat (length s).

(** [s.iloc[i]]: positional access, a negative [i] counting from the end;
    out of bounds raises IndexError. *)
Definition iloc {A} (s : list A) (i : Z) : result A :=
  let j := (if i <? 0 then len s + i else i)%Z in
  if (j <? 0)%Z then Raise IndexError
  else match s !! Z.to_nat j with
       | Some x => Ok x
       | None => Raise IndexError
       end.

(** [s.shift(1)]: every value moves one row down, the first row is NaN. *)
Definition shift1 (s : list float) : list float :=
  match s with
  | [] => []
  | _ :: _ => nan :: removelast s
  end.

(** [s.pct_change()]: pandas computes [s / s.shift(1) - 1], row by row.
    (Before that, pandas releases older than 3.0 replace a missing close by
    the close before it; the closes the provider returns for a trading day
    are numbers, and on such a column the releases agree.) *)
Definition pct_change (s : list float) : list float :=
  zip_with (fun x p => x / p - 1) s (shift1 s).

(** pandas treats NaN as the missing value. *)
Definition isna (x : float) : bool := is_nan x.
Definition notna (x : float) : bool := negb (is_nan x).

(** [s.dropna()] *)
Definition dropna (s : list float) : list float := List.filter notna s.

(** A row count as a float. *)
Definition of_count (n : nat) : float := of_uint63 (Uint63.of_Z (Z.of_nat n)).

(** Sum of a float column, accumulated from the first row on.  (numpy
    adds a column of eight rows or more pairwise, in blocks, which can
    change the last bits of the sum; on shorter columns the two agree.) *)
Definition fsum (s : list float) : float := fold_left add s 0.

Definition fill0 (x : float) : float := if isna x then 0 else x.

(** [s.mean()] (skipna): the sum of the present values over their count,
    NaN when no value is present. *)
Definition mean (s : list float) : float :=
  let count := length (dropna s) in
  let the_sum := fsum (map fill0 s) in
  if (0 <? count)%nat then the_sum / of_count count else nan.

(** [s.var()] (skipna, ddof = 1): the squared deviations from the mean of
    the present values, summed and divided by [count - 1]; NaN when
    [count <= 1]. *)
Definition var (s : list float) : float :=
  let n := length (dropna s) in
  let count := if (n <=? 1)%nat then nan else of_count n in
  let d := if (n <=? 1)%nat then nan else of_count n - 1 in
  let avg := fsum (map fill0 s) / count in
  let sqr := map (fun v => if isna v then 0 else (avg - v) * (avg - v)) s in
  fsum sqr / d.

(** [s.std()] *)
Definition std (s : list float) : float := sqrt (var s).

(** [np.sqrt(252)] *)
Definition sqrt252 : float := sqrt 252.

(** The dictionary the function returns, one field per key. *)
Record Metrics : Type := mkMetrics {
  daily_returns : float;
  monthly_returns : float;
  ytd_returns : float;
  annual_returns : float;
  volatility : float;
  returns : list float;
  sharpe_ratio : float
}.

(** [(a / b - 1) * 100] over two positions of a column; the numerator is
    read first. *)
Definition pct_between (s : list float) (i j : Z) : result float :=
  a <- iloc s i ;;
  b <- iloc s j ;;
  Ok ((a / b - 1) * 100).

Section Metrics.
Variable df : DataFrame.

(** [df['Close']] *)
Definition close : list float := map Close df.

(** line 55: the column [df['daily_return']] the function adds to the
    frame it was given. *)
Definition daily_return : list float :=
  map (fun r => r * 100) (pct_change close).

(** line 58 *)
Definition daily_returns_metric : result float :=
  if (1 <? len df)%Z then iloc daily_return (-1) else Ok 0.

(** lines 61-64 *)
Definition monthly_returns_metric : result float :=
  if (30 <=? len df)%Z then pct_between close (-1) (-30)
  else pct_between close (-1) 0.

(** line 69: [df[df.index >= start_of_year]] *)
Definition ytd_data (current_year : Z) : DataFrame :=
  List.filter (fun b => timestamp_geb (date b) (start_of_year current_year)) df.

(** lines 70-73 *)
Definition ytd_returns_metric (current_year : Z) : result float :=
  match ytd_data current_year with
  | [] => Ok 0
  | _ :: _ => pct_between (map Close (ytd_data current_year)) (-1) 0
  end.

(** lines 76-79 *)
Definition annual_returns_metric : result float :=
  if (252 <? len df)%Z then pct_between close (-1) (-252)
  else pct_between close (-1) 0.

(** line 82 *)
Definition volatility_metric : float := std daily_return * sqrt252.

(** line 85 *)
Definition returns_metric : list float := dropna daily_return.

(** lines 88-93 *)
Definition sharpe_ratio_metric : float :=
  let avg_daily_return := mean daily_return in
  let daily_std := std daily_return in
  if 0 <? daily_std then (avg_daily_return / daily_std) * sqrt252
  else 0.

(** [calculate_performance_metrics(df)] on a frame that has the column
    'Close', with the year that [datetime.now()] reports as a parameter.
    The first statement that raises ends the call and no dictionary is
    returned.  ([calculate_performance_metrics_frame] below adds the frame
    without the column.) *)
Definition calculate_performance_metrics (current_year : Z) : result Metrics :=
  d <- daily_returns_metric ;;
  m <- monthly_returns_metric ;;
  y <- ytd_returns_metric current_year ;;
  a <- annual_returns_metric ;;
  Ok (mkMetrics d m y a volatility_metric returns_metric sharpe_ratio_metric).
End Metrics.



(** *** Notions used to state the properties *)

(** A float that is neither a zero, an infinity nor NaN, read off the
    specification of the format. *)
Definition is_finite_nonzero (x : float) : bool :=
  match Prim2SF x with S754_finite _ _ _ => true | _ => false end.

(** The changes of a column that follows the value [prev]. *)
Fixpoint pct_from (prev : float) (s : list float) : list float :=
  match s with
  | [] => []
  | x :: t => (x / prev - 1) :: pct_from x t
  end.

(** A frame whose bars all carry the date [d], with the given closes. *)
Definition bars_on (d : Timestamp) (closes : list float) : DataFrame :=
  map (mkBar d) closes.

End Utils.

(** ** database.py *)

Module Database.
Local Open Scope Z_scope.

(** Column values: NULL (Python's None), integers, strings and datetimes
    (a reading of the clock). *)
Inductive value : Type :=
  | VNull
  | VInt (z : Z)
  | VStr (s : string)
  | VTime (t : Z).

#[global] Instance value_eq_dec : EqDecision value.
Proof. solve_decision. Defined.

(** Python truthiness, as [if existing_id:] reads a value. *)
Definition truthy (v : value) : bool :=
  match v with
  | VNull => false
  | VInt z => negb (z =? 0)
  | VStr s => negb (String.eqb s EmptyString)
  | VTime _ => true
  end.

(** Rows of [watchlists] and [search_history]: id, user_id, ticker and the
    time of the insert. *)
Record watch_row : Type := mkWatch {
  w_id : Z; w_user_id : string; w_ticker : string; w_added_at : Z }.

Record search_row : Type := mkSearch {
  s_id : Z; s_user_id : string; s_ticker : string; s_searched_at : Z }.

(** The columns of [user_preferences].  A row of that table, like the
    dictionaries the functions take and return, maps column names to
    values; a column a row lacks is NULL. *)
Definition columns : list string :=
  ["id"; "user_id"; "default_ticker"; "default_period"; "theme";
   "show_ma50"; "show_ma200"; "updated_at"].

Definition col (c : string) (r : gmap string value) : value :=
  default VNull (r !! c).

(** The three tables, rows in the order of their insertion. *)
Record db : Type := mkDb {
  watchlists : list watch_row;
  search_history : list search_row;
  user_preferences : list (gmap string value) }.

Definition empty_db : db := mkDb [] [] [].

(** *** The constraints of [user_preferences]

    [id] is the integer primary key; [user_id] is NOT NULL and UNIQUE. *)
Definition is_int (v : value) : Prop :=
  match v with VInt _ => True | _ => False end.

#[global] Instance is_int_dec v : Decision (is_int v).
Proof. destruct v; simpl; apply _. Defined.

Definition table_ok (rows : list (gmap string value)) : Prop :=
  NoDup (map (col "id") rows)
  /\ Forall is_int (map (col "id") rows)
  /\ NoDup (map (col "user_id") rows)
  /\ Forall (fun v => v <> VNull) (map (col "user_id") rows).

#[global] Instance table_ok_dec rows : Decision (table_ok rows).
Proof. unfold table_ok. apply _. Defined.

(** The rowid SQLite assigns: one more than the largest in use, 1 in an
    empty table.  (Once the largest is [2^63 - 1] SQLite tries unused ids
    at random instead; the embedding does not follow it there.) *)
Definition next_id (ids : list Z) : Z :=
  match ids with
  | [] => 1
  | z :: zs => foldr Z.max z zs + 1
  end.

Definition row_id (r : gmap string value) : Z :=
  match col "id" r with VInt z => z | _ => 0 end.

(** *** Storage that may fail

    Every call into the storage (connecting, executing a statement,
    committing) consults a schedule of faults; an exhausted schedule means
    no further fault.  [Closed] is a failure whose message mentions a
    closed engine, [Broken] any other failure. *)
Inductive fault : Type := NoFault | Closed | Broken.

(** [store] is the committed database, [txn] what the open connection
    sees: the store and the changes it has not committed yet. *)
Record world : Type := mkWorld {
  store : db;
  txn : db;
  faults : list fault }.

Definition M (A : Type) : Type := world -> result A * world.

Definition ret {A} (a : A) : M A := fun w => (Ok a, w).

Definition mbind {A B} (m : M A) (k : A -> M B) : M B :=
  fun w =>
    match m w with
    | (Ok a, w') => k a w'
    | (Raise e, w') => (Raise e, w')
    end.

Definition raise {A} (e : exn) : M A := fun w => (Raise e, w).

(** [try: body  except Exception as e: handler] *)
Definition try_except {A} (body : M A) (handler : exn -> M A) : M A :=
  fun w =>
    match body w with
    | (Ok a, w') => (Ok a, w')
    | (Raise e, w') => handler e w'
    end.

Declare Scope db_scope.
Delimit Scope db_scope with db.
Notation "x <- m ;; k" := (mbind m (fun x => k))
  (at level 100, m at next level, right associativity) : db_scope.
Local Open Scope db_scope.

Definition storage_call : M unit :=
  fun w =>
    match faults w with
    | [] => (Ok tt, w)
    | NoFault :: fs => (Ok tt, mkWorld (store w) (txn w) fs)
    | _ :: fs => (Raise OperationalError, mkWorld (store w) (txn w) fs)
    end.

(** [get_connection()]: [engine.connect()]; when that fails with a message
    that mentions 'closed' the engine is created again and the second
    attempt decides; any other failure is raised again. *)
Definition get_connection : M unit :=
  fun w =>
    match faults w with
    | Closed :: fs => storage_call (mkWorld (store w) (txn w) fs)
    | _ => storage_call w
    end.

(** [with get_connection() as conn: body]: the connection starts from the
    committed store; leaving the block, normally or by an exception, drops
    what was not committed. *)
Definition with_connection {A} (body : M A) : M A :=
  fun w =>
    match get_connection w with
    | (Raise e, w1) => (Raise e, w1)
    | (Ok _, w1) =>
        let (r, w2) := body (mkWorld (store w1) (store w1) (faults w1)) in
        (r, mkWorld (store w2) (store w2) (faults w2))
    end.

(** [conn.execute(query)] of a SELECT. *)
Definition execute_select {A} (query : db -> A) : M A :=
  _ <- storage_call ;;
  fun w => (Ok (query (txn w)), w).

(** [conn.execute(stmt)] of an INSERT, UPDATE or DELETE: a statement that
    is refused leaves the tables as they were. *)
Definition execute (stmt : db -> result db) : M unit :=
  _ <- storage_call ;;
  fun w =>
    match stmt (txn w) with
    | Ok d => (Ok tt, mkWorld (store w) d (faults w))
    | Raise e => (Raise e, w)
    end.

(** [conn.commit()] *)
Definition commit : M unit :=
  _ <- storage_call ;;
  fun w => (Ok tt, mkWorld (txn w) (txn w) (faults w)).

(** *** Statements *)

(** [insert(watchlists).values(user_id=..., ticker=..., added_at=...)] *)
Definition insert_watchlists (user_id ticker : string) (now : Z) (d : db) : result db :=
  let rows := watchlists d in
  Ok (mkDb (rows ++ [mkWatch (next_id (map w_id rows)) user_id ticker now])
           (search_history d) (user_preferences d)).

(** [delete(watchlists).where(user_id == ... & ticker == ...)] *)
Definition delete_watchlists (user_id ticker : string) (d : db) : result db :=
  Ok (mkDb (filter (fun r => ~ (w_user_id r = user_id /\ w_ticker r = ticker))
                   (watchlists d))
           (search_history d) (user_preferences d)).

(** [insert(search_history).values(...)] *)
Definition insert_search_history (user_id ticker : string) (now : Z) (d : db) : result db :=
  let rows := search_history d in
  Ok (mkDb (watchlists d)
           (rows ++ [mkSearch (next_id (map s_id rows)) user_id ticker now])
           (user_preferences d)).

(** The column defaults of [user_preferences], without and with
    [updated_at]. *)
Definition base_prefs : gmap string value :=
  <["default_ticker" := VStr "AAPL"]>
  (<["default_period" := VStr "1 Year"]>
  (<["theme" := VStr "light"]>
  (<["show_ma50" := VInt 1]>
  (<["show_ma200" := VInt 1]> ∅)))).

Definition column_defaults (now : Z) : gmap string value :=
  <["updated_at" := VTime now]> base_prefs.

(** A statement may only name columns of the table. *)
Definition known_columns (values : gmap string value) : Prop :=
  map_Forall (fun k _ => k ∈ columns) values.

#[global] Instance known_columns_dec values : Decision (known_columns values).
Proof. unfold known_columns. apply _. Defined.

(** The types of the columns: [id], [show_ma50] and [show_ma200] are
    Integer columns, [updated_at] is a DateTime column, the others are
    String columns. *)
Inductive coltype : Type := TInteger | TString | TDateTime.

#[global] Instance coltype_eq_dec : EqDecision coltype.
Proof. solve_decision. Defined.

Definition column_type (c : string) : coltype :=
  if decide (c ∈ ["id"; "show_ma50"; "show_ma200"]) then TInteger
  else if decide (c = "updated_at") then TDateTime
  else TString.

(** The integers the driver hands to SQLite: 64 bits, signed. *)
Definition int64 (z : Z) : Prop := - 2 ^ 63 <= z < 2 ^ 63.

#[global] Instance int64_dec z : Decision (int64 z).
Proof. unfold int64. apply _. Defined.

(** The parameters a statement can be executed with.  The DateTime type
    takes a datetime or None and raises TypeError on anything else; the
    driver raises OverflowError on an integer beyond 64 bits. *)
Definition binds (c : string) (v : value) : Prop :=
  match v with
  | VNull | VTime _ => True
  | VInt z => int64 z /\ column_type c <> TDateTime
  | VStr _ => column_type c <> TDateTime
  end.

#[global] Instance binds_dec c v : Decision (binds c v).
Proof. destruct v; simpl; apply _. Defined.

Definition bindable (values : gmap string value) : Prop :=
  map_Forall binds values.

#[global] Instance bindable_dec values : Decision (bindable values).
Proof. unfold bindable. apply _. Defined.

(** A value of the type of its column, or NULL: the column stores it and
    gives it back as it is.  A value of another type that the driver
    binds is converted by the affinity of the column (an integer to its
    decimal text in a String column, a numeric text to a number in an
    Integer column, a datetime to its text outside [updated_at]).  The
    embedding does not follow these conversions, it keeps such a value as
    it is given: what is said below of stored values is said of
    dictionaries that are [well_typed]. *)
Definition typed (c : string) (v : value) : Prop :=
  match v, column_type c with
  | VNull, _ => True
  | VInt z, TInteger => int64 z
  | VStr _, TString => True
  | VTime _, TDateTime => True
  | _, _ => False
  end.

#[global] Instance typed_dec c v : Decision (typed c v).
Proof. unfold typed. destruct v, (column_type c); apply _. Defined.

Definition well_typed (values : gmap string value) : Prop :=
  map_Forall typed values.

#[global] Instance well_typed_dec values : Decision (well_typed values).
Proof. unfold well_typed. apply _. Defined.

(** [insert(user_preferences).values(...)], the dictionary unpacked into
    the columns: a column not given takes its default, the id is assigned
    unless one is given, and the row is refused if a parameter cannot be
    bound or the table would break a constraint. *)
Definition insert_user_preferences (values : gmap string value) (now : Z)
    (d : db) : result db :=
  if decide (known_columns values) then
    if decide (bindable values) then
      let rows := user_preferences d in
      let id :=
        match values !! "id" with
        | Some VNull | None => VInt (next_id (map row_id rows))
        | Some v => v
        end in
      let rows' := rows ++ [<["id" := id]> (values ∪ column_defaults now)] in
      if decide (table_ok rows')
      then Ok (mkDb (watchlists d) (search_history d) rows')
      else Raise IntegrityError
    else Raise StatementError
  else Raise CompileError.

(** [update(user_preferences).where(user_id == ...).values(...)]:
    the columns named are overwritten in every matching row.  With an
    empty dictionary the statement has nothing to set and is refused. *)
Definition update_user_preferences_where (user_id : string)
    (values : gmap string value) (d : db) : result db :=
  if decide (values = ∅) then Raise CompileError
  else if decide (known_columns values) then
    if decide (bindable values) then
      let rows' :=
        map (fun r => if decide (col "user_id" r = VStr user_id)
                      then values ∪ r else r)
            (user_preferences d) in
      if decide (table_ok rows')
      then Ok (mkDb (watchlists d) (search_history d) rows')
      else Raise IntegrityError
    else Raise StatementError
  else Raise CompileError.

(** *** Queries *)

Definition select_watchlist_tickers (user_id : string) (d : db) : list string :=
  map w_ticker (filter (fun r => w_user_id r = user_id) (watchlists d)).

(** [.first()] of the ids of the entries of a pair. *)
Definition select_watchlist_entry (user_id ticker : string) (d : db) : option Z :=
  head (map w_id (filter (fun r => w_user_id r = user_id /\ w_ticker r = ticker)
                         (watchlists d))).

(** ORDER BY searched_at DESC, by insertion of a row in front of the rows
    that follow it in the table: rows of equal time stay in the order of
    the table, as SQLite's sorter leaves them. *)
Fixpoint insert_by_time (r : search_row) (l : list search_row) : list search_row :=
  match l with
  | [] => [r]
  | x :: t =>
      if s_searched_at x <=? s_searched_at r then r :: l
      else x :: insert_by_time r t
  end.

Definition select_recent_searches (user_id : string) (limit : Z) (d : db)
    : list (string * Z) :=
  let rows := foldr insert_by_time []
                (filter (fun r => s_user_id r = user_id) (search_history d)) in
  let rows := if limit <? 0 then rows else take (Z.to_nat limit) rows in
  map (fun r => (s_ticker r, s_searched_at r)) rows.

Definition select_user_preferences (user_id : string) (d : db)
    : list (gmap string value) :=
  filter (fun r => col "user_id" r = VStr user_id) (user_preferences d).

(** [{c.name: getattr(result, c.name) for c in user_preferences.c}] *)
Definition row_to_dict (r : gmap string value) : gmap string value :=
  list_to_map (map (fun c => (c, col c r)) columns).

(** [.scalar()] of the ids of the rows of a user: the first id, None when
    there is no row. *)
Definition scalar_id (rows : list (gmap string value)) : value :=
  match rows with
  | [] => VNull
  | r :: _ => col "id" r
  end.

(** *** The operations: each is its [try] block and its [except] clause *)

Definition get_watchlist_try (user_id : string) : M (list string) :=
  with_connection (execute_select (select_watchlist_tickers user_id)).

Definition get_watchlist (user_id : string) : M (list string) :=
  try_except (get_watchlist_try user_id) (fun _ => ret []).

Definition add_to_watchlist_try (ticker user_id : string) (now : Z) : M bool :=
  with_connection (
    existing <- execute_select (select_watchlist_entry user_id ticker) ;;
    match existing with
    | None =>
        _ <- execute (insert_watchlists user_id ticker now) ;;
        _ <- commit ;;
        ret true
    | Some _ => ret false
    end).

Definition add_to_watchlist (ticker user_id : string) (now : Z) : M bool :=
  try_except (add_to_watchlist_try ticker user_id now) (fun _ => ret false).

Definition remove_from_watchlist_try (ticker user_id : string) : M bool :=
  with_connection (
    _ <- execute (delete_watchlists user_id ticker) ;;
    _ <- commit ;;
    ret true).

Definition remove_from_watchlist (ticker user_id : string) : M bool :=
  try_except (remove_from_watchlist_try ticker user_id) (fun _ => ret false).

Definition add_to_search_history_try (ticker user_id : string) (now : Z) : M bool :=
  with_connection (
    _ <- execute (insert_search_history user_id ticker now) ;;
    _ <- commit ;;
    ret true).

Definition add_to_search_history (ticker user_id : string) (now : Z) : M bool :=
  try_except (add_to_search_history_try ticker user_id now) (fun _ => ret false).

(** The limit is a parameter of the query: the driver raises
    OverflowError on one beyond 64 bits, before the query reaches the
    storage. *)
Definition get_recent_searches_try (user_id : string) (limit : Z)
    : M (list (string * Z)) :=
  with_connection (
    if decide (int64 limit)
    then execute_select (select_recent_searches user_id limit)
    else raise StatementError).

Definition get_recent_searches (user_id : string) (limit : Z)
    : M (list (string * Z)) :=
  try_except (get_recent_searches_try user_id limit) (fun _ => ret []).

(** The dictionary [default_prefs] of [get_user_preferences]. *)
Definition default_prefs (user_id : string) (now : Z) : gmap string value :=
  <["user_id" := VStr user_id]> (column_defaults now).

Definition get_user_preferences_try (user_id : string) (now : Z)
    : M (gmap string value) :=
  with_connection (
    result <- execute_select (fun d => head (select_user_preferences user_id d)) ;;
    match result with
    | Some r => ret (row_to_dict r)
    | None =>
        _ <- execute (insert_user_preferences (default_prefs user_id now) now) ;;
        _ <- commit ;;
        ret (default_prefs user_id now)
    end).

Definition get_user_preferences (user_id : string) (now : Z)
    : M (gmap string value) :=
  try_except (get_user_preferences_try user_id now) (fun _ => ret base_prefs).

(** [update_user_preferences]: the caller's dictionary also gains the key
    'user_id' on the insert path; the embedding passes dictionaries by
    value and leaves that out. *)
Definition update_user_preferences_try (preferences : gmap string value)
    (user_id : string) (now : Z) : M bool :=
  with_connection (
    existing_id <-
      execute_select (fun d => scalar_id (select_user_preferences user_id d)) ;;
    _ <- execute
           (if truthy existing_id
            then update_user_preferences_where user_id preferences
            else insert_user_preferences
                   (<["user_id" := VStr user_id]> preferences) now) ;;
    _ <- commit ;;
    ret true).

Definition update_user_preferences (preferences : gmap string value)
    (user_id : string) (now : Z) : M bool :=
  try_except (update_user_preferences_try preferences user_id now)
             (fun _ => ret false).

(** A world whose storage never fails. *)
Definition healthy (d : db) : world := mkWorld d d [].

(** *** Sessions

    A call of one of the operations, and the store a sequence of calls
    leaves, each call made under its own schedule of faults. *)
Inductive call : Type :=
  | GetWatchlist (user_id : string)
  | AddToWatchlist (ticker user_id : string) (now : Z)
  | RemoveFromWatchlist (ticker user_id : string)
  | AddToSearchHistory (ticker user_id : string) (now : Z)
  | GetRecentSearches (user_id : string) (limit : Z)
  | GetUserPreferences (user_id : string) (now : Z)
  | UpdateUserPreferences (preferences : gmap string value)
                          (user_id : string) (now : Z).

Definition perform (c : call) (w : world) : world :=
  match c with
  | GetWatchlist u => snd (get_watchlist u w)
  | AddToWatchlist t u now => snd (add_to_watchlist t u now w)
  | RemoveFromWatchlist t u => snd (remove_from_watchlist t u w)
  | AddToSearchHistory t u now => snd (add_to_search_history t u now w)
  | GetRecentSearches u limit => snd (get_recent_searches u limit w)
  | GetUserPreferences u now => snd (get_user_preferences u now w)
  | UpdateUserPreferences p u now => snd (update_user_preferences p u now w)
  end.

Definition session (calls : list (call * list fault)) (d : db) : db :=
  fold_left (fun d c => store (perform (fst c) (mkWorld d d (snd c)))) calls d.

(** *** Notions used to state the properties *)

(** The number of stored entries of a (user, ticker) pair. *)
Definition watch_count (user_id ticker : string) (d : db) : nat :=
  length (filter (fun r => w_user_id r = user_id /\ w_ticker r = ticker)
                 (watchlists d)).

(** At most one entry of [watchlists] per (user, ticker) pair. *)
Definition watchlist_unique (d : db) : Prop :=
  forall user_id ticker : string, (watch_count user_id ticker d <= 1)%nat.

(** At most one row of [user_preferences] per user. *)
Definition unique_user_id (rows : list (gmap string value)) : Prop :=
  forall user_id : string,
    (length (filter (fun r => col "user_id" r = VStr user_id) rows) <= 1)%nat.

(** The statement [update_user_preferences] executes: an UPDATE when the
    id it selected is truthy, an INSERT with the user's id otherwise. *)
Definition upsert_statement (preferences : gmap string value)
    (user_id : string) (now : Z) (d : db) : db -> result db :=
  if truthy (scalar_id (select_user_preferences user_id d))
  then update_user_preferences_where user_id preferences
  else insert_user_preferences (<["user_id" := VStr user_id]> preferences) now.

(** The row [get_user_preferences] stores for a user who has none. *)
Definition default_row (user_id : string) (now : Z) (d : db) : gmap string value :=
  <["id" := VInt (next_id (map row_id (user_preferences d)))]>
    (default_prefs user_id now).

(** The constraints of [user_preferences], and one entry at most per
    watchlist pair. *)
Definition store_inv (d : db) : Prop :=
  watchlist_unique d /\ table_ok (user_preferences d).

(** [op], whose [try] block is [body], returns a value in the world [w],
    and that value is [dflt] whenever the block raises. *)
Definition degrades_to {A} (op body : M A) (dflt : A) (w : world) : Prop :=
  exists v w',
    op w = (Ok v, w') /\ forall e, fst (body w) = Raise e -> v = dflt.

(** A list whose keys do not increase: no later element has a larger key
    than an earlier one. *)
Fixpoint desc_by {A} (key : A -> Z) (l : list A) : Prop :=
  match l with
  | [] => True
  | a :: t => Forall (fun b => key b <= key a) t /\ desc_by key t
  end.

(** (ticker, time) pairs with the latest time first. *)
Definition newest_first (l : list (string * Z)) : Prop := desc_by snd l.

(** The user a call is made for, and whether the call leaves the column
    [user_id] alone (an update may name it in its dictionary). *)
Definition call_user (c : call) : string :=
  match c with
  | GetWatchlist u | AddToWatchlist _ u _ | RemoveFromWatchlist _ u
  | AddToSearchHistory _ u _ | GetRecentSearches u _ | GetUserPreferences u _
  | UpdateUserPreferences _ u _ => u
  end.

Definition keeps_user_id (c : call) : Prop :=
  match c with
  | UpdateUserPreferences p _ _ => p !! "user_id" = None
  | _ => True
  end.

(** What the store holds for one user. *)
Definition user_view (user_id : string) (d : db)
    : list watch_row * list search_row * list (gmap string value) :=
  (filter (fun r => w_user_id r = user_id) (watchlists d),
   filter (fun r => s_user_id r = user_id) (search_history d),
   select_user_preferences user_id d).

End Database.

(** ** app.py: the handlers that call the two modules *)

Module App.
Import Database.
Local Open Scope db_scope.

(** line 47 *)
Definition USER_ID : string := "default_user".

(** line 60 *)
Definition default_watchlist : list string :=
  ["AAPL"; "MSFT"; "GOOGL"; "AMZN"; "META"].

(** lines 88-89: [for ticker in ...: db.add_to_watchlist(ticker, USER_ID)];
    the call number [i] reads the clock as [times i]. *)
Fixpoint add_all (times : nat -> Z) (i : nat) (tickers : list string) : M unit :=
  match tickers with
  | [] => ret tt
  | ticker :: rest =>
      _ <- add_to_watchlist ticker USER_ID (times i) ;;
      add_all times (S i) rest
  end.

(** lines 78-94: the watchlist of a new session. *)
Definition load_watchlist (times : nat -> Z) : M (list string) :=
  try_except
    (watchlist_from_db <- get_watchlist USER_ID ;;
     match watchlist_from_db with
     | _ :: _ => ret watchlist_from_db
     | [] =>
         _ <- add_all times 0 default_watchlist ;;
         ret default_watchlist
     end)
    (fun _ => ret default_watchlist).

(** lines 157-163: the loop that keeps the first occurrence of every
    recent ticker other than the selected one. *)
Fixpoint unique_searches_from (selected_ticker : string) (seen : gset string)
    (unique_searches : list string) (recent_searches : list (string * Z))
    : list string :=
  match recent_searches with
  | [] => unique_searches
  | (ticker, _) :: rest =>
      if decide ((ticker ∉ seen) /\ ticker <> selected_ticker)
      then unique_searches_from selected_ticker ({[ticker]} ∪ seen)
             (unique_searches ++ [ticker]) rest
      else unique_searches_from selected_ticker seen unique_searches rest
  end.

Definition unique_searches (selected_ticker : string)
    (recent_searches : list (string * Z)) : list string :=
  unique_searches_from selected_ticker ∅ [] recent_searches.

(** lines 150-165: the tickers of the recent-search buttons, from
    [db.get_recent_searches(USER_ID)] with its default limit of 5, cut to
    [unique_searches[:6]]. *)
Definition recent_buttons (selected_ticker : string) : M (list string) :=
  recent_searches <- get_recent_searches USER_ID 5 ;;
  ret (take 6 (unique_searches selected_ticker recent_searches)).

(** The message the Add button ends with. *)
Inductive add_message : Type :=
  | Added               (* st.success, then a rerun *)
  | AlreadyInWatchlist  (* st.info *)
  | InvalidTicker       (* st.error: no recent data *)
  | ErrorAdding         (* st.error: the provider raised *)
  | NoMessage.          (* empty input, or a ticker already listed *)

(** lines 197-222: the Add button.  [recent_data] is what
    [yf.Ticker(new_ticker).history(period="1d")] gives: whether it has
    rows, or an exception.  The result is the session's watchlist and the
    message. *)
Definition add_button (new_ticker : string) (recent_data : result bool)
    (db_connected : bool) (now : Z) (watchlist : list string)
    : M (list string * add_message) :=
  if negb (String.eqb new_ticker EmptyString)
     && bool_decide (new_ticker ∉ watchlist)
  then
    match recent_data with
    | Raise _ => ret (watchlist, ErrorAdding)
    | Ok false => ret (watchlist, InvalidTicker)
    | Ok true =>
        added_to_db <-
          (if db_connected
           then try_except (add_to_watchlist new_ticker USER_ID now)
                           (fun _ => ret false)
           else ret false) ;;
        if added_to_db || bool_decide (new_ticker ∉ watchlist)
        then ret (watchlist ++ [new_ticker], Added)
        else ret (watchlist, AlreadyInWatchlist)
    end
  else ret (watchlist, NoMessage).

End App.

(** ** Facts about binary64 arithmetic used below *)

Section FloatFacts.
Import Utils.
Local Open Scope float_scope.

Lemma new_location_exact m : new_location (Z.pos m) 0 = loc_Exact.
Proof.
  unfold new_location, new_location_even, new_location_odd.
  destruct (Z.even (Z.pos m)); reflexivity.
Qed.

Lemma div_eucl_shift53 m :
  Z.div_eucl (Z.shiftl (Z.pos m) 53) (Z.pos m) = (9007199254740992%Z, 0%Z).
Proof.
  rewrite Z.shiftl_mul_pow2 by lia.
  generalize (Z.div_eucl_eq (Z.pos m * 2 ^ 53) (Z.pos m)).
  generalize (Z.mod_pos_bound (Z.pos m * 2 ^ 53) (Z.pos m)).
  unfold Z.modulo.
  destruct (Z.div_eucl (Z.pos m * 2 ^ 53) (Z.pos m)) as [q r].
  intros Hb He. specialize (Hb ltac:(lia)). specialize (He ltac:(lia)).
  change (2 ^ 53)%Z with 9007199254740992%Z in *.
  assert (q = 9007199254740992%Z) by nia. subst q. f_equal. lia.
Qed.

Lemma SFdiv_core_self m e :
  SFdiv_core_binary prec emax (Z.pos m) e (Z.pos m) e
  = (9007199254740992%Z, (-53)%Z, loc_Exact).
Proof.
  unfold SFdiv_core_binary.
  replace (Zdigits2 (Z.pos m) + e - (Zdigits2 (Z.pos m) + e))%Z with 0%Z by lia.
  replace (e - e)%Z with 0%Z by lia.
  change (Z.min (fexp prec emax 0) 0) with (-53)%Z.
  change (0 - -53)%Z with 53%Z. cbv beta iota zeta.
  rewrite div_eucl_shift53, new_location_exact. reflexivity.
Qed.

(** A finite non-zero number divided by itself is exactly 1. *)
Lemma div_self (x : float) : is_finite_nonzero x = true -> x / x = 1.
Proof.
  unfold is_finite_nonzero. intros H.
  apply Prim2SF_inj. rewrite div_spec.
  destruct (Prim2SF x) as [ | | |s m e]; try discriminate.
  unfold SF64div, SFdiv. rewrite SFdiv_core_self.
  destruct s; reflexivity.
Qed.

(** Dividing by NaN gives NaN. *)
Lemma div_nan_r (x : float) : x / nan = nan.
Proof.
  apply Prim2SF_inj. rewrite div_spec.
  change (Prim2SF nan) with S754_nan.
  destruct (Prim2SF x); reflexivity.
Qed.

(** A finite non-zero number divided by a zero is an infinity. *)
Lemma div_zero_r (x z : float) :
  is_finite_nonzero x = true -> is_zero z = true ->
  x / z = infinity \/ x / z = neg_infinity.
Proof.
  unfold is_finite_nonzero, is_zero. rewrite eqb_spec. intros Hx Hz.
  assert (Hq : Prim2SF (x / z) = S754_infinity false
               \/ Prim2SF (x / z) = S754_infinity true).
  { rewrite div_spec.
    destruct (Prim2SF x) as [ | | |s m e]; try discriminate.
    change (Prim2SF 0) with (S754_zero false) in Hz.
    destruct (Prim2SF z) as [sz|sz| |sz mz ez]; try destruct sz;
      try discriminate; destruct s; cbn; auto. }
  destruct Hq as [Hq|Hq]; [left|right]; apply Prim2SF_inj; rewrite Hq; reflexivity.
Qed.

(** A float that compares equal to 0 is not greater than 0, and neither is
    NaN. *)
Lemma ltb_zero_of_eqb (x : float) : (x =? 0) = true -> (0 <? x) = false.
Proof.
  rewrite eqb_spec, ltb_spec. change (Prim2SF 0) with (S754_zero false).
  destruct (Prim2SF x) as [s| | |s m e]; try reflexivity; try discriminate.
  - destruct s; discriminate.
  - destruct s; discriminate.
Qed.

Lemma is_nan_eq (x : float) : is_nan x = true -> x = nan.
Proof.
  intros H. apply Prim2SF_inj. unfold Prim2SF at 1. rewrite H. reflexivity.
Qed.

End FloatFacts.

(** ** The metrics engine *)

Section UtilsFacts.
Import Utils.
Local Open Scope float_scope.

(** *** Positional access *)

Lemma iloc_last {A} (s : list A) (x : A) : iloc (s ++ [x]) (-1) = Ok x.
Proof.
  unfold iloc, len. rewrite length_app. cbn [length].
  change (-1 <? 0)%Z with true. cbv iota.
  destruct (Z.ltb_spec (Z.of_nat (length s + 1) + -1) 0); [lia|].
  replace (Z.to_nat (Z.of_nat (length s + 1) + -1)) with (length s) by lia.
  rewrite lookup_app_r by lia. rewrite Nat.sub_diag. reflexivity.
Qed.

Lemma iloc_first {A} (s : list A) (x : A) : iloc (x :: s) 0 = Ok x.
Proof. reflexivity. Qed.

Lemma iloc_nil {A} (i : Z) : iloc (@nil A) i = Raise IndexError.
Proof.
  unfold iloc, len. cbn [length].
  destruct (i <? 0)%Z; destruct (_ <? 0)%Z; reflexivity.
Qed.

(** [s.iloc[-k]] with [1 <= k <= len(s)] is the element at [len(s) - k]. *)
Lemma iloc_from_end {A} (s : list A) (k : nat) (x : A) :
  (1 <= k <= length s)%nat ->
  s !! (length s - k)%nat = Some x ->
  iloc s (- Z.of_nat k) = Ok x.
Proof.
  intros Hk Hx. unfold iloc, len.
  destruct (Z.ltb_spec (- Z.of_nat k) 0); [|lia].
  destruct (Z.ltb_spec (Z.of_nat (length s) + - Z.of_nat k) 0); [lia|].
  replace (Z.to_nat (Z.of_nat (length s) + - Z.of_nat k))
    with (length s - k)%nat by lia.
  rewrite Hx. reflexivity.
Qed.

Lemma iloc_from_end_total {A} (s : list A) (k : nat) :
  (1 <= k <= length s)%nat ->
  exists x, s !! (length s - k)%nat = Some x /\ iloc s (- Z.of_nat k) = Ok x.
Proof.
  intros Hk.
  destruct (lookup_lt_is_Some_2 s (length s - k)%nat ltac:(lia)) as [x Hx].
  exists x. split; [exact Hx|]. apply iloc_from_end; assumption.
Qed.

(** *** Percentage change *)

Lemma zip_with_removelast (a : float) (t : list float) :
  zip_with (fun x p => x / p - 1) t (removelast (a :: t)) = pct_from a t.
Proof.
  revert a. induction t as [|b t IH]; intros a; [reflexivity|].
  change (removelast (a :: b :: t)) with (a :: removelast (b :: t)).
  cbn [zip_with pct_from]. rewrite IH. reflexivity.
Qed.

(** The first change is NaN, each later one compares a row with the row
    before it. *)
Lemma pct_change_cons (a : float) (t : list float) :
  pct_change (a :: t) = nan :: pct_from a t.
Proof.
  unfold pct_change, shift1. cbn [zip_with].
  rewrite zip_with_removelast, div_nan_r. reflexivity.
Qed.

Lemma pct_from_snoc (a : float) (l : list float) (p x : float) :
  pct_from a (l ++ [p; x]) = pct_from a (l ++ [p]) ++ [x / p - 1].
Proof.
  revert a. induction l as [|b l IH]; intros a; cbn [app pct_from].
  - reflexivity.
  - rewrite IH. reflexivity.
Qed.

Lemma pct_change_snoc (l : list float) (p x : float) :
  pct_change (l ++ [p; x]) = pct_change (l ++ [p]) ++ [x / p - 1].
Proof.
  destruct l as [|a l]; cbn [app]; rewrite !pct_change_cons; [reflexivity|].
  rewrite pct_from_snoc. reflexivity.
Qed.

Lemma length_pct_from (a : float) (t : list float) :
  length (pct_from a t) = length t.
Proof.
  revert a. induction t as [|b t IH]; intros a; cbn [pct_from length]; auto.
Qed.

Lemma length_pct_change (s : list float) : length (pct_change s) = length s.
Proof.
  destruct s as [|a t]; [reflexivity|].
  rewrite pct_change_cons. cbn [length]. f_equal. apply length_pct_from.
Qed.

Lemma close_app (df1 df2 : DataFrame) : close (df1 ++ df2) = close df1 ++ close df2.
Proof. apply map_app. Qed.

(** The last entry of the [daily_return] column of a frame that ends in
    the bars [b1; b2]. *)
Lemma daily_return_snoc (pre : DataFrame) (b1 b2 : Bar) :
  daily_return (pre ++ [b1; b2])
  = daily_return (pre ++ [b1]) ++ [(Close b2 / Close b1 - 1) * 100].
Proof.
  unfold daily_return. rewrite !close_app. cbn [close map].
  rewrite pct_change_snoc, map_app. reflexivity.
Qed.

(** *** The call returns on every frame that has a bar *)

Lemma pct_between_last_first (c : float) (s : list float) :
  exists a, last (c :: s) = Some a
            /\ pct_between (c :: s) (-1) 0 = Ok ((a / c - 1) * 100).
Proof.
  destruct (proj2 (last_is_Some (c :: s)) ltac:(discriminate)) as [a Ha].
  exists a. split; [exact Ha|].
  apply last_Some in Ha as [l' Hl]. unfold pct_between.
  rewrite Hl, iloc_last, <- Hl, iloc_first. reflexivity.
Qed.

Lemma pct_between_from_end (s : list float) (k : nat) :
  (1 <= k <= length s)%nat ->
  exists a b, last s = Some a /\ s !! (length s - k)%nat = Some b
              /\ pct_between s (-1) (- Z.of_nat k) = Ok ((a / b - 1) * 100).
Proof.
  intros Hk.
  destruct (iloc_from_end_total s k Hk) as [b [Hb Hib]].
  destruct (iloc_from_end_total s 1 ltac:(lia)) as [a [Ha Hia]].
  exists a, b. repeat split; [|exact Hb|].
  - rewrite last_lookup. rewrite <- Ha. f_equal. lia.
  - unfold pct_between. change (-1)%Z with (- Z.of_nat 1)%Z.
    rewrite Hia. cbn [bind]. rewrite Hib. reflexivity.
Qed.

Lemma length_close (df : DataFrame) : length (close df) = length df.
Proof. apply length_map. Qed.

Lemma monthly_returns_total (df : DataFrame) :
  df <> [] -> exists m, monthly_returns_metric df = Ok m.
Proof.
  intros Hne. unfold monthly_returns_metric, len.
  destruct (Z.leb_spec 30 (Z.of_nat (length df))).
  - destruct (pct_between_from_end (close df) 30) as (a & b & _ & _ & E).
    { rewrite length_close. lia. }
    change (- Z.of_nat 30)%Z with (-30)%Z in E. eauto.
  - destruct df as [|b df]; [contradiction|].
    destruct (pct_between_last_first (Close b) (close df)) as (a & _ & E).
    eexists. exact E.
Qed.

Lemma annual_returns_total (df : DataFrame) :
  df <> [] -> exists m, annual_returns_metric df = Ok m.
Proof.
  intros Hne. unfold annual_returns_metric, len.
  destruct (Z.ltb_spec 252 (Z.of_nat (length df))).
  - destruct (pct_between_from_end (close df) 252) as (a & b & _ & _ & E).
    { rewrite length_close. lia. }
    change (- Z.of_nat 252)%Z with (-252)%Z in E. eauto.
  - destruct df as [|b df]; [contradiction|].
    destruct (pct_between_last_first (Close b) (close df)) as (a & _ & E).
    eexists. exact E.
Qed.

Lemma ytd_returns_total (df : DataFrame) (y : Z) :
  exists m, ytd_returns_metric df y = Ok m.
Proof.
  unfold ytd_returns_metric. destruct (ytd_data df y) as [|b t]; [eauto|].
  destruct (pct_between_last_first (Close b) (map Close t)) as (a & _ & E).
  eexists. exact E.
Qed.

Lemma daily_returns_total (df : DataFrame) :
  exists d, daily_returns_metric df = Ok d.
Proof.
  unfold daily_returns_metric, len.
  destruct (Z.ltb_spec 1 (Z.of_nat (length df))); [|eauto].
  destruct (iloc_from_end_total (daily_return df) 1) as (d & _ & E).
  { unfold daily_return. rewrite length_map, length_pct_change, length_close. lia. }
  eauto.
Qed.

(** On a frame with at least one bar the call returns its dictionary, each
    entry being the value its statement computes. *)
Lemma calculate_performance_metrics_returns (df : DataFrame) (y : Z) :
  df <> [] ->
  exists d m yv a,
    daily_returns_metric df = Ok d /\ monthly_returns_metric df = Ok m /\
    ytd_returns_metric df y = Ok yv /\ annual_returns_metric df = Ok a /\
    calculate_performance_metrics df y
    = Ok (mkMetrics d m yv a (volatility_metric df) (returns_metric df)
                    (sharpe_ratio_metric df)).
Proof.
  intros Hne.
  destruct (daily_returns_total df) as [d Hd].
  destruct (monthly_returns_total df Hne) as [m Hm].
  destruct (ytd_returns_total df y) as [yv Hy].
  destruct (annual_returns_total df Hne) as [a Ha].
  exists d, m, yv, a. unfold calculate_performance_metrics.
  rewrite Hd, Hm, Hy, Ha. repeat split; reflexivity.
Qed.


(** *** Single-bar frames *)

Lemma daily_return_single (b : Bar) : daily_return [b] = [nan].
Proof.
  unfold daily_return. cbn [close map]. rewrite pct_change_cons. reflexivity.
Qed.

(** With at most one present value the sample deviation is undefined. *)
Lemma std_undefined (s : list float) :
  (length (dropna s) <= 1)%nat -> std s = nan.
Proof.
  intros H. unfold std, var.
  destruct (Nat.leb_spec (length (dropna s)) 1); [|lia].
  rewrite (div_nan_r (fsum _)). reflexivity.
Qed.

Lemma length_dropna (s : list float) : (length (dropna s) <= length s)%nat.
Proof. apply filter_length_le. Qed.

Lemma length_daily_return (df : DataFrame) :
  length (daily_return df) = length df.
Proof.
  unfold daily_return. rewrite length_map, length_pct_change. apply length_close.
Qed.

Lemma daily_return_cons (b : Bar) (df : DataFrame) :
  exists t, daily_return (b :: df) = nan :: t /\ length t = length df.
Proof.
  exists (map (fun r => r * 100) (pct_from (Close b) (close df))).
  split.
  - unfold daily_return. cbn [close map]. rewrite pct_change_cons. reflexivity.
  - rewrite length_map, length_pct_from. apply length_close.
Qed.

(** A frame of fewer than 3 bars has fewer than 2 daily returns, so their
    deviation is NaN. *)
Lemma std_short_frame (df : DataFrame) :
  (length df <= 2)%nat -> std (daily_return df) = nan.
Proof.
  intros H. apply std_undefined.
  destruct df as [|b df]; [cbn; lia|].
  destruct (daily_return_cons b df) as (t & -> & Ht).
  unfold dropna. cbn [List.filter]. change (notna nan) with false. cbv iota.
  pose proof (length_dropna t) as Hl. unfold dropna in Hl.
  cbn [length] in H. lia.
Qed.

Lemma list_snoc2 {A} (l : list A) :
  (2 <= length l)%nat -> exists pre x y, l = pre ++ [x; y].
Proof.
  intros H.
  destruct (proj2 (last_is_Some l)) as [y Hy]; [intros ->; cbn in H; lia|].
  apply last_Some in Hy as [l1 ->].
  destruct (proj2 (last_is_Some l1)) as [x Hx].
  { intros ->. cbn in H. lia. }
  apply last_Some in Hx as [pre ->].
  exists pre, x, y. rewrite <- app_assoc. reflexivity.
Qed.

(** *** Daily return *)

Lemma daily_returns_two_bars (df : DataFrame) :
  (2 <= length df)%nat ->
  exists a b, iloc (close df) (-1) = Ok a /\ iloc (close df) (-2) = Ok b
              /\ daily_returns_metric df = Ok ((a / b - 1) * 100).
Proof.
  intros H. destruct (list_snoc2 df H) as (pre & b1 & b2 & ->).
  exists (Close b2), (Close b1). repeat split.
  - rewrite (close_app pre [b1; b2]).
    change (close [b1; b2]) with ([Close b1] ++ [Close b2]).
    rewrite app_assoc. apply iloc_last.
  - change (-2)%Z with (- Z.of_nat 2)%Z. apply iloc_from_end.
    + rewrite length_close. lia.
    + rewrite close_app, length_app. cbn [close map length].
      rewrite lookup_app_r by lia.
      match goal with |- _ !! ?n = _ => replace n with 0%nat by lia end.
      reflexivity.
  - unfold daily_returns_metric, len.
    destruct (Z.ltb_spec 1 (Z.of_nat (length (pre ++ [b1; b2])))); [|lia].
    rewrite daily_return_snoc. apply iloc_last.
Qed.

(** C6: with at least 2 bars the call returns
    [daily_returns = (close[-1]/close[-2] - 1) * 100]; with fewer than 2
    bars line 58 stores 0, which the call returns for a one-bar frame; on
    closes [100, 102, 101, 105, 103] the value is [(103/105 - 1) * 100],
    between -1.905 and -1.904. *)
Theorem daily_return_formula (df : DataFrame) (y : Z) :
  ((2 <= length df)%nat ->
     exists m a b,
       calculate_performance_metrics df y = Ok m
       /\ iloc (close df) (-1) = Ok a /\ iloc (close df) (-2) = Ok b
       /\ daily_returns m = (a / b - 1) * 100)
  /\ ((length df < 2)%nat -> daily_returns_metric df = Ok 0)
  /\ (length df = 1%nat ->
        exists m, calculate_performance_metrics df y = Ok m /\ daily_returns m = 0)
  /\ (close df = [100; 102; 101; 105; 103] ->
        exists m,
          calculate_performance_metrics df y = Ok m
          /\ daily_returns m = (103 / 105 - 1) * 100
          /\ (-1905 / 1000 <? daily_returns m) = true
          /\ (daily_returns m <? -1904 / 1000) = true).
Proof.
  assert (Hret : forall d, df <> [] -> daily_returns_metric df = Ok d ->
            exists m, calculate_performance_metrics df y = Ok m /\ daily_returns m = d).
  { intros d Hne Hd.
    destruct (calculate_performance_metrics_returns df y Hne)
      as (d' & m & yv & a & Hd' & _ & _ & _ & E).
    rewrite Hd in Hd'. injection Hd' as <-.
    eexists. split; [exact E|reflexivity]. }
  split; [|split; [|split]].
  - intros H. destruct (daily_returns_two_bars df H) as (a & b & Ha & Hb & Hd).
    destruct (Hret _ ltac:(intros ->; cbn in H; lia) Hd) as (m & E & Em).
    exists m, a, b. auto.
  - intros H. unfold daily_returns_metric, len.
    destruct (Z.ltb_spec 1 (Z.of_nat (length df))); [lia|reflexivity].
  - intros H. apply Hret; [intros ->; discriminate|].
    unfold daily_returns_metric, len. rewrite H. reflexivity.
  - intros Hc.
    assert (Hl : length df = 5%nat) by (rewrite <- length_close, Hc; reflexivity).
    destruct (daily_returns_two_bars df ltac:(lia)) as (a & b & Ha & Hb & Hd).
    rewrite Hc in Ha, Hb. injection Ha as <-. injection Hb as <-.
    destruct (Hret _ ltac:(intros ->; discriminate) Hd) as (m & E & Em).
    exists m. rewrite Em. repeat split; [exact E|..]; reflexivity.
Qed.

(** The daily return of the five-bar example, and an instance of each
    case. *)
Lemma daily_return_formula_witness :
  let d := mkTimestamp 2024 3 1 in
  (exists m a b,
      calculate_performance_metrics (bars_on d [100; 102; 101; 105; 103]) 2024 = Ok m
      /\ iloc (close (bars_on d [100; 102; 101; 105; 103])) (-1) = Ok a
      /\ iloc (close (bars_on d [100; 102; 101; 105; 103])) (-2) = Ok b
      /\ daily_returns m = (a / b - 1) * 100)
  /\ daily_returns_metric (bars_on d [100]) = Ok 0.
Proof.
  split.
  - apply (proj1 (daily_return_formula _ 2024)). cbn. lia.
  - apply (proj1 (proj2 (daily_return_formula (bars_on _ [100]) 2024))). cbn. lia.
Defined.

(** *** Monthly return *)

Lemma returned_monthly (df : DataFrame) (y : Z) (v : float) :
  df <> [] -> monthly_returns_metric df = Ok v ->
  exists m, calculate_performance_metrics df y = Ok m /\ monthly_returns m = v.
Proof.
  intros Hne Hv.
  destruct (calculate_performance_metrics_returns df y Hne)
    as (d & m & yv & a & _ & Hm & _ & _ & E).
  rewrite Hv in Hm. injection Hm as <-.
  eexists. split; [exact E|reflexivity].
Qed.

Lemma pct_between_parts (s : list float) (i j : Z) (v : float) :
  pct_between s i j = Ok v ->
  exists a b, iloc s i = Ok a /\ iloc s j = Ok b /\ v = (a / b - 1) * 100.
Proof.
  unfold pct_between. destruct (iloc s i) as [a|]; [|discriminate].
  destruct (iloc s j) as [b|]; [|discriminate].
  cbn [bind]. intros [= <-]. eauto.
Qed.

(** C4: with at least 30 bars the call returns
    [monthly_returns = (close[-1]/close[-30] - 1) * 100], with 1 to 29 bars
    [(close[-1]/close[0] - 1) * 100]; on a 40-bar frame [close[-30]] is the
    bar at position 10 and [close[-1]] the bar at position 39.  On the
    empty frame there is no [close[-1]]: the formula and line 64 raise the
    same IndexError. *)
Theorem monthly_return_formula (df : DataFrame) (y : Z) :
  ((30 <= length df)%nat ->
     exists m a b,
       calculate_performance_metrics df y = Ok m
       /\ iloc (close df) (-1) = Ok a /\ iloc (close df) (-30) = Ok b
       /\ monthly_returns m = (a / b - 1) * 100)
  /\ ((1 <= length df < 30)%nat ->
        exists m a b,
          calculate_performance_metrics df y = Ok m
          /\ iloc (close df) (-1) = Ok a /\ iloc (close df) 0 = Ok b
          /\ monthly_returns m = (a / b - 1) * 100)
  /\ (length df = 40%nat ->
        exists m a b,
          calculate_performance_metrics df y = Ok m
          /\ close df !! 39%nat = Some a /\ close df !! 10%nat = Some b
          /\ monthly_returns m = (a / b - 1) * 100)
  /\ (length df = 0%nat ->
        iloc (close df) (-1) = Raise IndexError
        /\ monthly_returns_metric df = Raise IndexError).
Proof.
  split; [|split; [|split]].
  - intros H.
    assert (Hne : df <> []) by (intros ->; cbn in H; lia).
    destruct (monthly_returns_total df Hne) as [v Hv].
    destruct (returned_monthly df y v Hne Hv) as (m & E & Em).
    unfold monthly_returns_metric, len in Hv.
    destruct (Z.leb_spec 30 (Z.of_nat (length df))); [|lia].
    apply pct_between_parts in Hv as (a & b & Ha & Hb & ->).
    exists m, a, b. auto.
  - intros H.
    assert (Hne : df <> []) by (intros ->; cbn in H; lia).
    destruct (monthly_returns_total df Hne) as [v Hv].
    destruct (returned_monthly df y v Hne Hv) as (m & E & Em).
    unfold monthly_returns_metric, len in Hv.
    destruct (Z.leb_spec 30 (Z.of_nat (length df))); [lia|].
    apply pct_between_parts in Hv as (a & b & Ha & Hb & ->).
    exists m, a, b. auto.
  - intros H.
    assert (Hne : df <> []) by (intros ->; discriminate).
    destruct (pct_between_from_end (close df) 30) as (a & b & Ha & Hb & Hv).
    { rewrite length_close. lia. }
    rewrite last_lookup in Ha. rewrite length_close, H in Ha, Hb.
    destruct (returned_monthly df y ((a / b - 1) * 100) Hne) as (m & E & Em).
    { unfold monthly_returns_metric, len. rewrite H. exact Hv. }
    exists m, a, b. auto.
  - intros H. destruct df; [|discriminate]. split; reflexivity.
Qed.

(** A 40-bar frame whose closes are 1 to 40: the monthly return compares
    the close 40 with the close 11; and a 3-bar frame, where it compares
    the last close with the first. *)
Lemma monthly_return_formula_witness :
  let df := bars_on (mkTimestamp 2024 3 1) (map (fun n => of_count n) (seq 1 40)) in
  let short := bars_on (mkTimestamp 2024 3 1) [100; 110; 121] in
  (exists m a b,
      calculate_performance_metrics df 2024 = Ok m
      /\ close df !! 39%nat = Some a /\ close df !! 10%nat = Some b
      /\ monthly_returns m = (a / b - 1) * 100)
  /\ (exists m a b,
        calculate_performance_metrics short 2024 = Ok m
        /\ iloc (close short) (-1) = Ok a /\ iloc (close short) 0 = Ok b
        /\ monthly_returns m = (a / b - 1) * 100).
Proof.
  split.
  - apply (proj1 (proj2 (proj2 (monthly_return_formula _ 2024)))). reflexivity.
  - apply (proj1 (proj2 (monthly_return_formula _ 2024))). cbn. lia.
Defined.

(** *** Year-to-date return *)

(** A calendar date is on or after January 1 of [y] exactly when its year
    is at least [y]. *)
Lemma timestamp_geb_start_of_year (t : Timestamp) (y : Z) :
  (1 <= month t)%Z -> (1 <= day t)%Z ->
  timestamp_geb t (start_of_year y) = (y <=? year t)%Z.
Proof.
  intros Hm Hd. unfold timestamp_geb, start_of_year. cbn [year month day].
  destruct (Z.ltb_spec y (year t)), (Z.eqb_spec (year t) y),
    (Z.ltb_spec 1 (month t)), (Z.eqb_spec (month t) 1),
    (Z.leb_spec 1 (day t)), (Z.leb_spec y (year t)); cbn; lia.
Qed.

(** [ytd_data] keeps, in their order, exactly the bars dated on or after
    January 1 of the current year. *)
Lemma ytd_data_spec (df : DataFrame) (y : Z) :
  sublist (ytd_data df y) df
  /\ forall b, b ∈ ytd_data df y
               <-> b ∈ df /\ timestamp_geb (date b) (start_of_year y) = true.
Proof.
  unfold ytd_data. split.
  - induction df as [|b df IH]; cbn [List.filter]; [constructor|].
    destruct (timestamp_geb _ _); constructor; exact IH.
  - intros b. rewrite !list_elem_of_In, filter_In. reflexivity.
Qed.

Lemma ytd_data_empty (df : DataFrame) (y : Z) :
  ytd_data df y = []
  <-> Forall (fun b => timestamp_geb (date b) (start_of_year y) = false) df.
Proof.
  unfold ytd_data. induction df as [|b df IH]; cbn [List.filter].
  - split; [constructor|reflexivity].
  - destruct (timestamp_geb (date b) (start_of_year y)) eqn:E.
    + split; [discriminate|]. intros H. inversion H; congruence.
    + rewrite IH. split; [constructor; assumption|].
      intros H. inversion H; assumption.
Qed.

Lemma returned_ytd (df : DataFrame) (y : Z) (v : float) :
  df <> [] -> ytd_returns_metric df y = Ok v ->
  exists m, calculate_performance_metrics df y = Ok m /\ ytd_returns m = v.
Proof.
  intros Hne Hv.
  destruct (calculate_performance_metrics_returns df y Hne)
    as (d & m & yv & a & _ & _ & Hy & _ & E).
  rewrite Hv in Hy. injection Hy as <-.
  eexists. split; [exact E|reflexivity].
Qed.

(** C5: the year-to-date return is taken over [ytd_data], the bars dated on
    or after January 1 of the current year.  Of a frame of calendar dates
    (months and days count from 1) these are, in their order, exactly the
    bars whose year is the current one or a later one.  When that subset
    has a first bar the call returns [(close[-1]/close[0] - 1) * 100] of
    the subset, the change from the close of its first bar to the close of
    its last; when it is empty, that is when every bar is dated before
    January 1, lines 70-73 give 0, and the call returns 0 for every frame
    that has a bar. *)
Theorem ytd_return_formula (df : DataFrame) (y : Z) :
  (Forall (fun b => (1 <= month (date b) /\ 1 <= day (date b))%Z) df ->
     ytd_data df y = filter (fun b => (y <= year (date b))%Z) df)
  /\ (forall first rest, ytd_data df y = first :: rest ->
     exists m a b last_bar,
       calculate_performance_metrics df y = Ok m
       /\ iloc (map Close (ytd_data df y)) (-1) = Ok a
       /\ iloc (map Close (ytd_data df y)) 0 = Ok b
       /\ last (first :: rest) = Some last_bar
       /\ a = Close last_bar /\ b = Close first
       /\ ytd_returns m = (a / b - 1) * 100)
  /\ (Forall (fun b => timestamp_geb (date b) (start_of_year y) = false) df ->
        ytd_data df y = []
        /\ ytd_returns_metric df y = Ok 0
        /\ (df <> [] ->
              exists m, calculate_performance_metrics df y = Ok m
                        /\ ytd_returns m = 0)).
Proof.
  split; [|split].
  - unfold ytd_data. induction 1 as [|b l [Hm Hd] _ IH]; [reflexivity|].
    cbn [List.filter]. rewrite (filter_cons (fun b => (y <= year (date b))%Z)).
    rewrite (timestamp_geb_start_of_year _ _ Hm Hd), IH.
    destruct (decide (y <= year (date b))%Z) as [Hy|Hy];
      destruct (Z.leb_spec y (year (date b))); try lia; reflexivity.
  - intros first rest Hy.
    assert (Hne : df <> []) by (intros ->; discriminate).
    destruct (ytd_returns_total df y) as [v Hv].
    destruct (returned_ytd df y v Hne Hv) as (m & E & Em).
    unfold ytd_returns_metric in Hv. rewrite Hy in Hv. rewrite Hy.
    cbn [map] in *.
    destruct (pct_between_last_first (Close first) (map Close rest))
      as (a & Ha & Hp).
    rewrite Hp in Hv. injection Hv as <-.
    apply pct_between_parts in Hp as (a' & b' & Ha' & Hb' & Hp).
    change (Close first :: map Close rest) with (map Close (first :: rest)) in Ha.
    rewrite fmap_last in Ha.
    destruct (last (first :: rest)) as [last_bar|] eqn:El; [|discriminate].
    injection Ha as <-. rewrite iloc_first in Hb'. injection Hb' as <-.
    assert (a' = Close last_bar) as ->.
    { apply last_Some in El as [l' El].
      change (Close first :: map Close rest) with (map Close (first :: rest)) in Ha'.
      rewrite El, map_app in Ha'. cbn [map] in Ha'. rewrite iloc_last in Ha'.
      congruence. }
    exists m, (Close last_bar), (Close first), last_bar.
    split; [exact E|]. split; [exact Ha'|]. split; [reflexivity|].
    split; [reflexivity|]. split; [reflexivity|]. split; [reflexivity|].
    rewrite Em. reflexivity.
  - intros H. apply ytd_data_empty in H.
    assert (Hv : ytd_returns_metric df y = Ok 0)
      by (unfold ytd_returns_metric; rewrite H; reflexivity).
    repeat split; [exact H|exact Hv|].
    intros Hne. apply returned_ytd; assumption.
Qed.

(** Bars of 2023 and 2024 read in 2024 (the subset is the two bars of
    2024, and the return is the change from 100 to 104), and the same bars
    read in 2025 (the subset is empty). *)
Lemma ytd_return_formula_witness :
  let df := [mkBar (mkTimestamp 2023 12 29) 90; mkBar (mkTimestamp 2024 1 2) 100;
             mkBar (mkTimestamp 2024 1 3) 104] in
  ytd_data df 2024 = filter (fun b => (2024 <= year (date b))%Z) df
  /\ (exists m,
        calculate_performance_metrics df 2024 = Ok m
        /\ ytd_returns m = (104 / 100 - 1) * 100)
  /\ (exists m, calculate_performance_metrics df 2025 = Ok m /\ ytd_returns m = 0).
Proof.
  cbv zeta. split; [|split].
  - apply (proj1 (ytd_return_formula _ 2024)).
    repeat constructor; cbn; lia.
  - destruct (proj1 (proj2 (ytd_return_formula
                 [mkBar (mkTimestamp 2023 12 29) 90; mkBar (mkTimestamp 2024 1 2) 100;
                  mkBar (mkTimestamp 2024 1 3) 104] 2024))
                (mkBar (mkTimestamp 2024 1 2) 100) [mkBar (mkTimestamp 2024 1 3) 104])
      as (m & a & b & last_bar & E & _ & _ & El & -> & -> & Ey); [reflexivity|].
    injection El as <-. exists m. split; [exact E|exact Ey].
  - apply (proj2 (proj2 (ytd_return_formula _ 2025))).
    + repeat constructor.
    + discriminate.
Defined.

(** *** Single-bar input *)

(** The dictionary returned for a one-bar frame, entry by entry. *)
Lemma calculate_performance_metrics_single (b : Bar) (y : Z) :
  calculate_performance_metrics [b] y
  = Ok {| daily_returns := 0;
          monthly_returns := (Close b / Close b - 1) * 100;
          ytd_returns := if timestamp_geb (date b) (start_of_year y)
                         then (Close b / Close b - 1) * 100 else 0;
          annual_returns := (Close b / Close b - 1) * 100;
          volatility := nan;
          returns := [];
          sharpe_ratio := 0 |}.
Proof.
  unfold calculate_performance_metrics.
  change (daily_returns_metric [b]) with (@Ok float 0).
  change (monthly_returns_metric [b]) with (Ok ((Close b / Close b - 1) * 100)).
  change (annual_returns_metric [b]) with (Ok ((Close b / Close b - 1) * 100)).
  assert (Hy : ytd_returns_metric [b] y
               = Ok (if timestamp_geb (date b) (start_of_year y)
                     then (Close b / Close b - 1) * 100 else 0)).
  { unfold ytd_returns_metric, ytd_data. cbn [List.filter].
    destruct (timestamp_geb (date b) (start_of_year y)); reflexivity. }
  rewrite Hy. cbn [bind].
  unfold volatility_metric, returns_metric, sharpe_ratio_metric.
  rewrite daily_return_single. reflexivity.
Qed.

(** C1, as the code has it: a one-bar frame gives [daily_returns = 0],
    [sharpe_ratio = 0] and an empty [returns] vector; the monthly,
    year-to-date and annual returns are 0 when the close is a finite
    non-zero number; the volatility is NaN, the deviation of an empty set
    of daily returns. *)
Theorem single_bar_metrics (b : Bar) (y : Z) :
  exists m,
    calculate_performance_metrics [b] y = Ok m
    /\ daily_returns m = 0 /\ sharpe_ratio m = 0 /\ returns m = []
    /\ volatility m = nan
    /\ (is_finite_nonzero (Close b) = true ->
          monthly_returns m = 0 /\ ytd_returns m = 0 /\ annual_returns m = 0).
Proof.
  eexists. split; [apply calculate_performance_metrics_single|].
  cbn [daily_returns sharpe_ratio returns volatility monthly_returns
       ytd_returns annual_returns].
  repeat split; try reflexivity;
    rewrite (div_self _ H); try reflexivity.
  destruct (timestamp_geb _ _); reflexivity.
Qed.

(** One bar with close 100, a finite non-zero number. *)
Lemma single_bar_metrics_witness :
  exists m,
    calculate_performance_metrics [mkBar (mkTimestamp 2024 6 3) 100] 2024 = Ok m
    /\ monthly_returns m = 0 /\ ytd_returns m = 0 /\ annual_returns m = 0.
Proof.
  destruct (single_bar_metrics (mkBar (mkTimestamp 2024 6 3) 100) 2024)
    as (m & E & _ & _ & _ & _ & H).
  exists m. split; [exact E|]. apply H. reflexivity.
Defined.

(** The volatility of the one-bar frame with close 100 is NaN: it does not
    compare equal to 0. *)
Lemma single_bar_volatility_not_zero :
  exists m,
    calculate_performance_metrics [mkBar (mkTimestamp 2024 6 3) 100] 2024 = Ok m
    /\ is_nan (volatility m) = true
    /\ (volatility m =? 0) = false.
Proof. eexists. repeat split. Qed.

(** *** Zero denominators *)

(** The percentage over a zero base is an infinity. *)
Lemma pct_zero_base (a z : float) :
  is_finite_nonzero a = true -> is_zero z = true ->
  (a / z - 1) * 100 = infinity \/ (a / z - 1) * 100 = neg_infinity.
Proof.
  intros Ha Hz.
  destruct (div_zero_r a z Ha Hz) as [-> | ->]; [left|right]; reflexivity.
Qed.

Lemma sharpe_ratio_guard (df : DataFrame) :
  (0 <? std (daily_return df)) = false -> sharpe_ratio_metric df = 0.
Proof. unfold sharpe_ratio_metric. intros ->. reflexivity. Qed.

Lemma returned_sharpe (df : DataFrame) (y : Z) :
  df <> [] ->
  exists m, calculate_performance_metrics df y = Ok m
            /\ sharpe_ratio m = sharpe_ratio_metric df.
Proof.
  intros Hne.
  destruct (calculate_performance_metrics_returns df y Hne)
    as (d & m & yv & a & _ & _ & _ & _ & E).
  eexists. split; [exact E|reflexivity].
Qed.

(** C2, as the code has it: no division makes the call fail, it returns on
    every frame that has a bar; the Sharpe ratio is the one guarded
    division and is 0 when the deviation of the daily returns is 0; the
    return metrics divide unguarded, so the monthly return over a zero base
    close ([close[-30]], or [close[0]] on a short frame) and a finite
    non-zero last close is an infinity. *)
Theorem zero_denominators (df : DataFrame) (y : Z) :
  df <> [] ->
  exists m,
    calculate_performance_metrics df y = Ok m
    /\ ((std (daily_return df) =? 0) = true -> sharpe_ratio m = 0)
    /\ (forall a z,
          iloc (close df) (-1) = Ok a ->
          iloc (close df) (if (30 <=? len df)%Z then -30 else 0) = Ok z ->
          is_finite_nonzero a = true -> is_zero z = true ->
          monthly_returns m = infinity \/ monthly_returns m = neg_infinity).
Proof.
  intros Hne.
  destruct (calculate_performance_metrics_returns df y Hne)
    as (d & m & yv & an & _ & Hm & _ & _ & E).
  eexists. split; [exact E|].
  cbn [sharpe_ratio monthly_returns]. split.
  - intros H. apply sharpe_ratio_guard, ltb_zero_of_eqb, H.
  - intros a z Ha Hz Hfa Hzz. unfold monthly_returns_metric in Hm.
    assert (Hv : pct_between (close df) (-1)
                   (if (30 <=? len df)%Z then -30 else 0)%Z = Ok m)
      by (destruct (30 <=? len df)%Z; exact Hm).
    unfold pct_between in Hv. rewrite Ha, Hz in Hv. cbn [bind] in Hv.
    injection Hv as <-. apply pct_zero_base; assumption.
Qed.

(** Closes 1, 2, 4, 8: every daily return is 100%, their deviation is 0 and
    the Sharpe ratio is 0.  Closes 0, 102: the monthly return is infinite. *)
Lemma zero_denominators_witness :
  let df := bars_on (mkTimestamp 2024 3 1) [1; 2; 4; 8] in
  let df0 := bars_on (mkTimestamp 2024 3 1) [0; 102] in
  ((std (daily_return df) =? 0) = true
   /\ exists m, calculate_performance_metrics df 2024 = Ok m /\ sharpe_ratio m = 0)
  /\ (exists m, calculate_performance_metrics df0 2024 = Ok m
                /\ (monthly_returns m = infinity
                    \/ monthly_returns m = neg_infinity)).
Proof.
  split; [split; [reflexivity|]|].
  - destruct (zero_denominators (bars_on (mkTimestamp 2024 3 1) [1; 2; 4; 8]) 2024)
      as (m & E & H & _); [discriminate|].
    exists m. split; [exact E|]. apply H. reflexivity.
  - destruct (zero_denominators (bars_on (mkTimestamp 2024 3 1) [0; 102]) 2024)
      as (m & E & _ & H); [discriminate|].
    exists m. split; [exact E|]. apply (H 102 0); reflexivity.
Defined.

(** Closes 0 then 102: the divisions by [close[0] = 0] give an infinite
    monthly return, not 0. *)
Lemma zero_base_monthly_return_infinite :
  exists m,
    calculate_performance_metrics (bars_on (mkTimestamp 2024 3 1) [0; 102]) 2024 = Ok m
    /\ iloc (close (bars_on (mkTimestamp 2024 3 1) [0; 102])) 0 = Ok 0
    /\ monthly_returns m = infinity
    /\ (monthly_returns m =? 0) = false.
Proof. eexists. repeat split. Qed.

(** *** Sharpe ratio *)

(** C3, as the code has it: the Sharpe ratio is
    [(mean / std) * sqrt(252)] of the daily returns when their deviation is
    greater than 0, and 0 otherwise: when the deviation is 0, and when it
    is NaN, as it is on every frame of fewer than 3 bars. *)
Theorem sharpe_ratio_formula (df : DataFrame) (y : Z) :
  df <> [] ->
  exists m,
    calculate_performance_metrics df y = Ok m
    /\ ((0 <? std (daily_return df)) = true ->
          sharpe_ratio m
          = (mean (daily_return df) / std (daily_return df)) * sqrt252)
    /\ ((std (daily_return df) =? 0) = true -> sharpe_ratio m = 0)
    /\ (is_nan (std (daily_return df)) = true -> sharpe_ratio m = 0)
    /\ ((length df <= 2)%nat ->
          std (daily_return df) = nan /\ sharpe_ratio m = 0).
Proof.
  intros Hne. destruct (returned_sharpe df y Hne) as (m & E & Hs).
  exists m. split; [exact E|]. rewrite Hs. repeat split.
  - unfold sharpe_ratio_metric. intros ->. reflexivity.
  - intros H. apply sharpe_ratio_guard, ltb_zero_of_eqb, H.
  - intros H. apply sharpe_ratio_guard. rewrite (is_nan_eq _ H). reflexivity.
  - apply std_short_frame, H.
  - apply sharpe_ratio_guard. rewrite (std_short_frame df H). reflexivity.
Qed.

(** Five bars with a positive deviation of the daily returns, and two
    bars, whose single daily return has none. *)
Lemma sharpe_ratio_formula_witness :
  let df := bars_on (mkTimestamp 2024 3 1) [100; 102; 101; 105; 103] in
  let short := bars_on (mkTimestamp 2024 3 1) [100; 102] in
  (exists m,
      calculate_performance_metrics df 2024 = Ok m
      /\ sharpe_ratio m = (mean (daily_return df) / std (daily_return df)) * sqrt252)
  /\ (exists m,
        calculate_performance_metrics short 2024 = Ok m
        /\ std (daily_return short) = nan /\ sharpe_ratio m = 0).
Proof.
  split.
  - destruct (sharpe_ratio_formula
                (bars_on (mkTimestamp 2024 3 1) [100; 102; 101; 105; 103]) 2024)
      as (m & E & H & _); [discriminate|].
    exists m. split; [exact E|]. apply H. reflexivity.
  - destruct (sharpe_ratio_formula
                (bars_on (mkTimestamp 2024 3 1) [100; 102]) 2024)
      as (m & E & _ & _ & _ & H); [discriminate|].
    exists m. split; [exact E|]. apply H. cbn. lia.
Defined.

(** Closes 100 then 102: one daily return, whose deviation is NaN and not
    0; the formula gives NaN and the code 0. *)
Lemma two_bar_sharpe_ratio_not_formula :
  let df := bars_on (mkTimestamp 2024 3 1) [100; 102] in
  exists m,
    calculate_performance_metrics df 2024 = Ok m
    /\ (std (daily_return df) =? 0) = false
    /\ sharpe_ratio m = 0
    /\ (mean (daily_return df) / std (daily_return df)) * sqrt252 = nan
    /\ sharpe_ratio m
       <> (mean (daily_return df) / std (daily_return df)) * sqrt252.
Proof.
  eexists. repeat split.
  cbn [sharpe_ratio]. intros H. apply (f_equal is_nan) in H.
  vm_compute in H. discriminate.
Qed.

(** *** Further properties of the metrics *)

Lemma returned_annual (df : DataFrame) (y : Z) (v : float) :
  df <> [] -> annual_returns_metric df = Ok v ->
  exists m, calculate_performance_metrics df y = Ok m /\ annual_returns m = v.
Proof.
  intros Hne Hv.
  destruct (calculate_performance_metrics_returns df y Hne)
    as (d & m & yv & a & _ & _ & _ & Ha & E).
  rewrite Hv in Ha. injection Ha as <-.
  eexists. split; [exact E|reflexivity].
Qed.

(** X1: with more than 252 bars the annual return compares the last close
    with [close[-252]], the bar at position [len - 252]; with 1 to 252 bars
    it compares the last close with the first. *)
Theorem annual_return_formula (df : DataFrame) (y : Z) :
  ((252 < length df)%nat ->
     exists m a b,
       calculate_performance_metrics df y = Ok m
       /\ iloc (close df) (-1) = Ok a /\ iloc (close df) (-252) = Ok b
       /\ close df !! (length df - 252)%nat = Some b
       /\ annual_returns m = (a / b - 1) * 100)
  /\ ((1 <= length df <= 252)%nat ->
        exists m a b,
          calculate_performance_metrics df y = Ok m
          /\ iloc (close df) (-1) = Ok a /\ iloc (close df) 0 = Ok b
          /\ annual_returns m = (a / b - 1) * 100).
Proof.
  split; intros H.
  - assert (Hne : df <> []) by (intros ->; cbn in H; lia).
    destruct (pct_between_from_end (close df) 252) as (a & b & Ha & Hb & Hv).
    { rewrite length_close. lia. }
    change (- Z.of_nat 252)%Z with (-252)%Z in Hv.
    destruct (returned_annual df y ((a / b - 1) * 100) Hne) as (m & E & Em).
    { unfold annual_returns_metric, len.
      destruct (Z.ltb_spec 252 (Z.of_nat (length df))); [exact Hv|lia]. }
    apply pct_between_parts in Hv as (a' & b' & Ha' & Hb' & Hv).
    exists m, a', b'. rewrite length_close in Hb.
    repeat split; try assumption.
    + change (-252)%Z with (- Z.of_nat 252)%Z in Hb'.
      rewrite (iloc_from_end (close df) 252 b) in Hb'.
      * injection Hb' as <-. exact Hb.
      * rewrite length_close. lia.
      * rewrite length_close. exact Hb.
    + rewrite Em. exact Hv.
  - assert (Hne : df <> []) by (intros ->; cbn in H; lia).
    destruct (annual_returns_total df Hne) as [v Hv].
    destruct (returned_annual df y v Hne Hv) as (m & E & Em).
    unfold annual_returns_metric, len in Hv.
    destruct (Z.ltb_spec 252 (Z.of_nat (length df))); [lia|].
    apply pct_between_parts in Hv as (a & b & Ha & Hb & ->).
    exists m, a, b. auto.
Qed.

(** A 253-bar frame whose closes are 1 to 253: the annual return compares
    the close 253 with the close 2, at position 1. *)
Lemma annual_return_formula_witness :
  let df := bars_on (mkTimestamp 2024 3 1) (map (fun n => of_count n) (seq 1 253)) in
  exists m a b,
    calculate_performance_metrics df 2024 = Ok m
    /\ iloc (close df) (-1) = Ok a /\ iloc (close df) (-252) = Ok b
    /\ close df !! 1%nat = Some b
    /\ annual_returns m = (a / b - 1) * 100.
Proof.
  cbv zeta.
  assert (H : (252 < length (bars_on (mkTimestamp 2024 3 1)
                              (map (fun n => of_count n) (seq 1 253))))%nat)
    by (vm_compute; lia).
  exact (proj1 (annual_return_formula _ 2024) H).
Defined.


Lemma pct_from_lookup (a : float) (t : list float) (i : nat) (p c : float) :
  (a :: t) !! i = Some p -> t !! i = Some c ->
  pct_from a t !! i = Some (c / p - 1).
Proof.
  revert a i. induction t as [|b t IH]; intros a i Hp Hc; [discriminate|].
  destruct i as [|i]; cbn in *.
  - injection Hp as <-. injection Hc as <-. reflexivity.
  - apply IH; assumption.
Qed.

(** X3: the column [daily_return] of line 55 has one row per bar; its first
    row is NaN and every later row is the change from the close before it,
    [(close[i+1] / close[i] - 1) * 100]. *)
Theorem daily_return_rows (df : DataFrame) :
  length (daily_return df) = length df
  /\ (df <> [] -> daily_return df !! 0%nat = Some nan)
  /\ (forall (i : nat) (p c : float),
        close df !! i = Some p -> close df !! S i = Some c ->
        daily_return df !! S i = Some ((c / p - 1) * 100)).
Proof.
  split; [apply length_daily_return|]. split.
  - intros Hne. destruct df as [|b df]; [contradiction|].
    destruct (daily_return_cons b df) as (t & -> & _). reflexivity.
  - intros i p c Hp Hc. destruct df as [|b df]; [discriminate|].
    unfold daily_return. cbn [close map] in *. rewrite pct_change_cons.
    cbn [map]. change ((nan * 100 :: ?l) !! S i) with (l !! i).
    rewrite list_lookup_fmap.
    rewrite (pct_from_lookup (Close b) (map Close df) i p c Hp Hc).
    reflexivity.
Qed.

(** Closes 100, 102, 101: the third row is the change from 102 to 101. *)
Lemma daily_return_rows_witness :
  daily_return (bars_on (mkTimestamp 2024 3 1) [100; 102; 101]) !! 2%nat
  = Some ((101 / 102 - 1) * 100).
Proof.
  apply (proj2 (proj2 (daily_return_rows
                         (bars_on (mkTimestamp 2024 3 1) [100; 102; 101]))) 1%nat);
    reflexivity.
Defined.

Lemma dropna_sublist (s : list float) : sublist (dropna s) s.
Proof.
  unfold dropna. induction s as [|x s IH]; cbn [List.filter]; [constructor|].
  destruct (notna x); constructor; exact IH.
Qed.

Lemma dropna_Forall (s : list float) :
  Forall (fun r => is_nan r = false) (dropna s).
Proof.
  unfold dropna. apply Forall_forall. intros r Hr.
  apply list_elem_of_In, filter_In in Hr as [_ Hr].
  unfold notna in Hr. apply negb_true_iff, Hr.
Qed.

Lemma dropna_filter (s : list float) :
  dropna s = filter (fun r => is_nan r = false) s.
Proof.
  unfold dropna. induction s as [|x s IH]; [reflexivity|].
  cbn [List.filter]. rewrite (filter_cons (fun r => is_nan r = false)), IH.
  unfold notna. destruct (is_nan x); cbn [negb];
    destruct (decide _) as [H|H]; congruence.
Qed.

Lemma pct_from_zip (a : float) (t : list float) :
  map (fun r => r * 100) (pct_from a t)
  = zip_with (fun c p => (c / p - 1) * 100) t (a :: t).
Proof.
  revert a. induction t as [|b t IH]; intros a; [reflexivity|].
  cbn [pct_from map zip_with]. rewrite IH. reflexivity.
Qed.

(** X4: the [returns] vector the call hands to the histogram is the list
    of the changes [(close[i+1] / close[i] - 1) * 100], one for every bar
    after the first, in the order of the bars, without those that are
    NaN: exactly the rows of [daily_return] that are not NaN, so at most
    one entry fewer than there are bars. *)
Theorem returns_vector (df : DataFrame) (y : Z) :
  df <> [] ->
  exists m,
    calculate_performance_metrics df y = Ok m
    /\ returns m
       = filter (fun r => is_nan r = false)
           (zip_with (fun c p => (c / p - 1) * 100) (tail (close df)) (close df))
    /\ returns m = filter (fun r => is_nan r = false) (daily_return df)
    /\ Forall (fun r => is_nan r = false) (returns m)
    /\ sublist (returns m) (daily_return df)
    /\ (forall r, r ∈ daily_return df -> is_nan r = false -> r ∈ returns m)
    /\ (length (returns m) <= length df - 1)%nat.
Proof.
  intros Hne.
  destruct (calculate_performance_metrics_returns df y Hne)
    as (d & m & yv & a & _ & _ & _ & _ & E).
  eexists. split; [exact E|]. cbn [returns]. unfold returns_metric.
  split; [|split; [apply dropna_filter|]].
  { destruct df as [|b df]; [contradiction|].
    rewrite dropna_filter. unfold daily_return. cbn [close map tail].
    rewrite pct_change_cons. cbn [map].
    rewrite (filter_cons_False (fun r => is_nan r = false)) by (cbn; discriminate).
    rewrite pct_from_zip. reflexivity. }
  split; [apply dropna_Forall|]. split; [apply dropna_sublist|]. split.
  - intros r Hr Hn. unfold dropna. apply list_elem_of_In, filter_In. split.
    + apply list_elem_of_In, Hr.
    + unfold notna. rewrite Hn. reflexivity.
  - destruct df as [|b df]; [contradiction|].
    destruct (daily_return_cons b df) as (t & -> & Ht).
    unfold dropna. cbn [List.filter]. change (notna nan) with false. cbv iota.
    pose proof (length_dropna t) as Hl. unfold dropna in Hl.
    cbn [length]. lia.
Qed.

(** Closes 100, 102, 101: the two returns of three bars. *)
Lemma returns_vector_witness :
  exists m,
    calculate_performance_metrics
      (bars_on (mkTimestamp 2024 3 1) [100; 102; 101]) 2024 = Ok m
    /\ returns m = [(102 / 100 - 1) * 100; (101 / 102 - 1) * 100]
    /\ (length (returns m) <= 2)%nat.
Proof.
  destruct (returns_vector (bars_on (mkTimestamp 2024 3 1) [100; 102; 101]) 2024)
    as (m & E & Hr & _ & _ & _ & _ & H); [discriminate|].
  exists m. split; [exact E|]. split; [|exact H].
  rewrite Hr. reflexivity.
Defined.

(** X5: on a frame of one or two bars the volatility is NaN: fewer than two
    daily returns have no sample deviation, and line 82 has no guard. *)
Theorem short_frame_volatility (df : DataFrame) (y : Z) :
  df <> [] -> (length df <= 2)%nat ->
  exists m,
    calculate_performance_metrics df y = Ok m
    /\ volatility m = nan /\ (volatility m =? 0) = false.
Proof.
  intros Hne Hlen.
  destruct (calculate_performance_metrics_returns df y Hne)
    as (d & m & yv & a & _ & _ & _ & _ & E).
  eexists. split; [exact E|]. cbn [volatility]. unfold volatility_metric.
  rewrite (std_short_frame df Hlen). split; reflexivity.
Qed.

Lemma short_frame_volatility_witness :
  exists m,
    calculate_performance_metrics
      (bars_on (mkTimestamp 2024 3 1) [100; 102]) 2024 = Ok m
    /\ volatility m = nan /\ (volatility m =? 0) = false.
Proof.
  apply short_frame_volatility; [discriminate|cbn; lia].
Defined.

Lemma ytd_data_all (df : DataFrame) (y : Z) :
  Forall (fun b => timestamp_geb (date b) (start_of_year y) = true) df ->
  ytd_data df y = df.
Proof.
  unfold ytd_data. induction 1 as [|b df Hb _ IH]; cbn [List.filter]; [reflexivity|].
  rewrite Hb, IH. reflexivity.
Qed.

(** X6: the dashboard shows one number three times on a young series: with
    fewer than 30 bars the monthly return is the annual return, and with at
    most 252 bars, all dated in the current year or later, the year-to-date
    return is the annual return too. *)
Theorem short_frame_returns_coincide (df : DataFrame) (y : Z) :
  df <> [] ->
  exists m,
    calculate_performance_metrics df y = Ok m
    /\ ((length df < 30)%nat -> monthly_returns m = annual_returns m)
    /\ ((length df <= 252)%nat ->
        Forall (fun b => timestamp_geb (date b) (start_of_year y) = true) df ->
        ytd_returns m = annual_returns m).
Proof.
  intros Hne.
  destruct (calculate_performance_metrics_returns df y Hne)
    as (d & m & yv & a & _ & Hm & Hy & Ha & E).
  eexists. split; [exact E|]. cbn [monthly_returns annual_returns ytd_returns].
  split.
  - intros Hlen. unfold monthly_returns_metric, annual_returns_metric, len in *.
    destruct (Z.leb_spec 30 (Z.of_nat (length df))); [lia|].
    destruct (Z.ltb_spec 252 (Z.of_nat (length df))); [lia|].
    congruence.
  - intros Hlen Hall. unfold ytd_returns_metric, annual_returns_metric, len in *.
    rewrite (ytd_data_all df y Hall) in Hy.
    destruct (Z.ltb_spec 252 (Z.of_nat (length df))); [lia|].
    destruct df as [|b df]; [contradiction|]. unfold close in Ha. congruence.
Qed.

(** Three bars of 2024 read in 2024: monthly, year-to-date and annual
    return are one number. *)
Lemma short_frame_returns_coincide_witness :
  exists m,
    calculate_performance_metrics
      (bars_on (mkTimestamp 2024 3 1) [100; 102; 101]) 2024 = Ok m
    /\ monthly_returns m = annual_returns m
    /\ ytd_returns m = annual_returns m.
Proof.
  destruct (short_frame_returns_coincide
              (bars_on (mkTimestamp 2024 3 1) [100; 102; 101]) 2024)
    as (m & E & H1 & H2); [discriminate|].
  exists m. split; [exact E|]. split.
  - apply H1. cbn. lia.
  - apply H2; [cbn; lia|repeat constructor].
Defined.

(** X7: with two bars or more, a daily return that is not NaN is the last
    entry of the [returns] vector. *)
Theorem daily_return_is_last_return (df : DataFrame) (y : Z) :
  (2 <= length df)%nat ->
  exists m,
    calculate_performance_metrics df y = Ok m
    /\ (is_nan (daily_returns m) = false ->
        last (returns m) = Some (daily_returns m)).
Proof.
  intros Hlen.
  assert (Hne : df <> []) by (intros ->; cbn in Hlen; lia).
  destruct (calculate_performance_metrics_returns df y Hne)
    as (d & m & yv & a & Hd & _ & _ & _ & E).
  eexists. split; [exact E|]. cbn [daily_returns returns].
  destruct (list_snoc2 df Hlen) as (pre & b1 & b2 & ->).
  unfold daily_returns_metric, len in Hd.
  destruct (Z.ltb_spec 1 (Z.of_nat (length (pre ++ [b1; b2])))); [|lia].
  unfold returns_metric. rewrite daily_return_snoc in *.
  rewrite iloc_last in Hd. injection Hd as <-.
  intros Hn. unfold dropna. rewrite List.filter_app. cbn [List.filter].
  unfold notna at 2. rewrite Hn. cbn [negb]. apply last_snoc.
Qed.

Lemma daily_return_is_last_return_witness :
  exists m,
    calculate_performance_metrics
      (bars_on (mkTimestamp 2024 3 1) [100; 102; 101]) 2024 = Ok m
    /\ last (returns m) = Some (daily_returns m).
Proof.
  destruct (daily_return_is_last_return
              (bars_on (mkTimestamp 2024 3 1) [100; 102; 101]) 2024)
    as (m & E & H); [cbn; lia|].
  exists m. split; [exact E|]. apply H.
  vm_compute in E. injection E as <-. reflexivity.
Defined.

End UtilsFacts.

(** ** The persistence layer *)

Section DatabaseFacts.
Import Database.
Local Open Scope Z_scope.
Local Open Scope db_scope.

(** *** Storage calls *)

(** A storage call succeeds or raises OperationalError; either way it
    touches neither the store nor the open transaction. *)
Lemma storage_call_cases (w : world) :
  exists r fs, storage_call w = (r, mkWorld (store w) (txn w) fs)
               /\ (r = Ok tt \/ r = Raise OperationalError)
               /\ (faults w = [] -> r = Ok tt /\ fs = []).
Proof.
  unfold storage_call. destruct w as [s t fs]. cbn [faults store txn].
  destruct fs as [|[] fs]; eexists _, _; (split; [reflexivity|]);
    split; auto; discriminate.
Qed.

Lemma get_connection_cases (w : world) :
  exists r fs, get_connection w = (r, mkWorld (store w) (txn w) fs)
               /\ (r = Ok tt \/ r = Raise OperationalError)
               /\ (faults w = [] -> r = Ok tt /\ fs = []).
Proof.
  unfold get_connection. destruct w as [s t fs]. cbn [faults store txn].
  destruct fs as [|[] fs]; try apply storage_call_cases.
  destruct (storage_call_cases (mkWorld s t fs)) as (r & fs' & E & Hr & _).
  exists r, fs'. repeat split; [exact E|exact Hr|discriminate|discriminate].
Qed.

(** An operation that catches every exception returns a value: the one of
    its [try] block, or the default of its [except] clause. *)
Lemma try_except_default {A} (body : M A) (dflt : A) (w : world) :
  exists v w',
    try_except body (fun _ => ret dflt) w = (Ok v, w')
    /\ (forall a, fst (body w) = Ok a -> v = a)
    /\ (forall e, fst (body w) = Raise e -> v = dflt).
Proof.
  unfold try_except, ret. destruct (body w) as [[a|e] w'].
  - exists a, w'. repeat split; cbn; congruence.
  - exists dflt, w'. repeat split; cbn; congruence.
Qed.

(** A broken connection makes every [with] block raise. *)
Lemma with_connection_broken {A} (body : M A) (s t : db) (fs : list fault) :
  with_connection body (mkWorld s t (Broken :: fs))
  = (Raise OperationalError, mkWorld s t fs).
Proof. reflexivity. Qed.

(** *** Failures degrade to defaults *)

Lemma try_except_degrades {A} (body : M A) (dflt : A) (w : world) :
  degrades_to (try_except body (fun _ => ret dflt)) body dflt w.
Proof.
  destruct (try_except_default body dflt w) as (v & w' & E & _ & H).
  exists v, w'. auto.
Qed.

(** C9: whatever the storage does, each watchlist, search-history and
    preferences operation returns a value and propagates no exception; when
    its [try] block raises, the value is the empty list, False, or the
    default preferences; in particular when the connection is broken. *)
Theorem storage_failures_are_not_fatal
    (w : world) (user_id ticker : string) (now limit : Z)
    (preferences : gmap string value) :
  (degrades_to (get_watchlist user_id) (get_watchlist_try user_id) [] w
   /\ degrades_to (add_to_watchlist ticker user_id now)
                  (add_to_watchlist_try ticker user_id now) false w
   /\ degrades_to (remove_from_watchlist ticker user_id)
                  (remove_from_watchlist_try ticker user_id) false w
   /\ degrades_to (add_to_search_history ticker user_id now)
                  (add_to_search_history_try ticker user_id now) false w
   /\ degrades_to (get_recent_searches user_id limit)
                  (get_recent_searches_try user_id limit) [] w
   /\ degrades_to (get_user_preferences user_id now)
                  (get_user_preferences_try user_id now) base_prefs w
   /\ degrades_to (update_user_preferences preferences user_id now)
                  (update_user_preferences_try preferences user_id now) false w)
  /\ (let broken := mkWorld (store w) (txn w) (Broken :: faults w) in
      get_watchlist user_id broken = (Ok [], w)
      /\ add_to_watchlist ticker user_id now broken = (Ok false, w)
      /\ remove_from_watchlist ticker user_id broken = (Ok false, w)
      /\ add_to_search_history ticker user_id now broken = (Ok false, w)
      /\ get_recent_searches user_id limit broken = (Ok [], w)
      /\ get_user_preferences user_id now broken = (Ok base_prefs, w)
      /\ update_user_preferences preferences user_id now broken = (Ok false, w)).
Proof.
  split.
  - repeat split; apply try_except_degrades.
  - destruct w as [s t fs]. cbn [store txn faults]. repeat split.
Qed.

(** *** Watchlist *)

Lemma select_watchlist_entry_None (user_id ticker : string) (d : db) :
  select_watchlist_entry user_id ticker d = None
  <-> watch_count user_id ticker d = 0%nat.
Proof.
  unfold select_watchlist_entry, watch_count.
  destruct (filter _ (watchlists d)); cbn; split; congruence.
Qed.

Lemma watch_count_insert (user_id ticker : string) (now : Z) (d d' : db) :
  insert_watchlists user_id ticker now d = Ok d' ->
  watch_count user_id ticker d' = S (watch_count user_id ticker d).
Proof.
  unfold insert_watchlists, watch_count. intros [= <-]. cbn [watchlists].
  rewrite filter_app, length_app, filter_cons_True by (cbn; auto).
  cbn. lia.
Qed.

Local Arguments storage_call : simpl never.
Local Arguments get_connection : simpl never.

Ltac step_call lem w :=
  let r := fresh "r" in
  let fs := fresh "fs" in
  let Hh := fresh "Hh" in
  destruct (lem w) as (r & fs & -> & [-> | ->] & Hh);
  cbn [store txn faults fst snd] in *.

Ltac step_storage :=
  match goal with
  | |- context [get_connection ?w] => step_call get_connection_cases w
  | |- context [storage_call ?w] => step_call storage_call_cases w
  end.

(** Every outcome of [add_to_watchlist]: it returns False and leaves the
    store as it was, or it found no entry of the pair, inserted one,
    committed and returns True.  With a storage that does not fail, the
    second is what happens when the pair has no entry. *)
Lemma add_to_watchlist_cases (ticker user_id : string) (now : Z) (w : world) :
  exists r w',
    add_to_watchlist ticker user_id now w = (Ok r, w')
    /\ ((r = false /\ store w' = store w)
        \/ (r = true /\ select_watchlist_entry user_id ticker (store w) = None
            /\ insert_watchlists user_id ticker now (store w) = Ok (store w')))
    /\ (faults w = [] ->
          faults w' = []
          /\ (select_watchlist_entry user_id ticker (store w) = None -> r = true)).
Proof.
  unfold add_to_watchlist, try_except, add_to_watchlist_try, with_connection.
  step_storage; [|eexists _, _; split; [reflexivity|split; [left; auto|]];
                  intros H; destruct (Hh H); discriminate].
  unfold mbind, execute_select, mbind.
  step_storage; [|eexists _, _; split; [reflexivity|split; [left; auto|]];
                  intros H; destruct (Hh0 (proj2 (Hh H))); discriminate].
  destruct (select_watchlist_entry user_id ticker (store w)) as [i|] eqn:Ex.
  { eexists _, _. split; [reflexivity|]. split; [left; auto|].
    intros H. cbn. split; [|discriminate].
    apply Hh0, Hh, H. }
  unfold execute, commit, mbind.
  step_storage; [|eexists _, _; split; [reflexivity|split; [left; auto|]];
                  intros H; destruct (Hh1 (proj2 (Hh0 (proj2 (Hh H))))); discriminate].
  cbn [insert_watchlists].
  step_storage; [|eexists _, _; split; [reflexivity|split; [left; auto|]];
                  intros H;
                  destruct (Hh2 (proj2 (Hh1 (proj2 (Hh0 (proj2 (Hh H)))))));
                  discriminate].
  eexists _, _. split; [reflexivity|]. split; [right; auto|].
  intros H. cbn. split; [|reflexivity].
  apply Hh2, Hh1, Hh0, Hh, H.
Qed.

(** [add_to_watchlist] never stores a second entry of a pair. *)
Lemma add_to_watchlist_count (ticker user_id : string) (now : Z) (w : world) :
  (watch_count user_id ticker (store w) <= 1)%nat ->
  (watch_count user_id ticker (store (snd (add_to_watchlist ticker user_id now w)))
   <= 1)%nat.
Proof.
  intros H.
  destruct (add_to_watchlist_cases ticker user_id now w)
    as (r & w' & -> & [[_ Hs] | (_ & Hn & Hi)] & _); cbn [snd];
    [rewrite Hs; exact H|].
  apply select_watchlist_entry_None in Hn.
  rewrite (watch_count_insert _ _ _ _ _ Hi), Hn. lia.
Qed.

(** Once the pair has an entry, a call inserts nothing and returns False,
    whatever the storage does. *)
Lemma add_to_watchlist_present (ticker user_id : string) (now : Z) (w : world) :
  (1 <= watch_count user_id ticker (store w))%nat ->
  exists w', add_to_watchlist ticker user_id now w = (Ok false, w')
             /\ store w' = store w.
Proof.
  intros H.
  destruct (add_to_watchlist_cases ticker user_id now w)
    as (r & w' & -> & [[-> Hs] | (_ & Hn & _)] & _).
  - exists w'. auto.
  - apply select_watchlist_entry_None in Hn. lia.
Qed.

(** C7: two calls of [add_to_watchlist] with the same ticker and user, on a
    store that holds the pair at most once.  With a storage that does not
    fail, and also whenever the first call returned True, the pair ends up
    with exactly one entry and the second call returns False and inserts
    nothing; in every case the pair ends up with at most one entry. *)
Theorem add_to_watchlist_idempotent
    (ticker user_id : string) (now1 now2 : Z) (w : world) :
  (watch_count user_id ticker (store w) <= 1)%nat ->
  exists r1 w1 r2 w2,
    add_to_watchlist ticker user_id now1 w = (Ok r1, w1)
    /\ add_to_watchlist ticker user_id now2 w1 = (Ok r2, w2)
    /\ (watch_count user_id ticker (store w2) <= 1)%nat
    /\ (faults w = [] \/ r1 = true ->
          watch_count user_id ticker (store w2) = 1%nat
          /\ r2 = false
          /\ store w2 = store w1).
Proof.
  intros H.
  pose proof (add_to_watchlist_count ticker user_id now1 w H) as H1.
  destruct (add_to_watchlist_cases ticker user_id now1 w)
    as (r1 & w1 & E1 & Hc1 & Hh1).
  rewrite E1 in H1. cbn [snd] in H1.
  pose proof (add_to_watchlist_count ticker user_id now2 w1 H1) as H2.
  destruct (add_to_watchlist_cases ticker user_id now2 w1)
    as (r2 & w2 & E2 & Hc2 & _).
  rewrite E2 in H2. cbn [snd] in H2.
  exists r1, w1, r2, w2. split; [exact E1|]. split; [exact E2|].
  split; [exact H2|]. intros Hok.
  assert (Hp : (1 <= watch_count user_id ticker (store w1))%nat).
  { destruct Hc1 as [[-> Hs1] | (_ & Hn & Hi)];
      [| rewrite (watch_count_insert _ _ _ _ _ Hi); lia].
    destruct Hok as [Hf | Ht]; [|discriminate].
    rewrite Hs1.
    destruct (watch_count user_id ticker (store w)) eqn:Ec; [|lia].
    apply select_watchlist_entry_None in Ec.
    destruct (Hh1 Hf) as [_ Hr]. specialize (Hr Ec). discriminate. }
  destruct (add_to_watchlist_present ticker user_id now2 w1 Hp)
    as (w2' & E2' & Hs).
  rewrite E2 in E2'. injection E2' as -> <-.
  repeat split; [|exact Hs]. rewrite Hs in H2 |- *. lia.
Qed.

(** Two adds of AAPL for one user to an empty store. *)
Lemma add_to_watchlist_idempotent_witness :
  exists r1 w1 r2 w2,
    add_to_watchlist "AAPL" "default_user" 10 (healthy empty_db) = (Ok r1, w1)
    /\ add_to_watchlist "AAPL" "default_user" 20 w1 = (Ok r2, w2)
    /\ watch_count "default_user" "AAPL" (store w2) = 1%nat
    /\ r2 = false
    /\ store w2 = store w1.
Proof.
  destruct (add_to_watchlist_idempotent "AAPL" "default_user" 10 20
              (healthy empty_db))
    as (r1 & w1 & r2 & w2 & E1 & E2 & _ & H); [cbn; lia|].
  exists r1, w1, r2, w2. split; [exact E1|]. split; [exact E2|].
  apply H. left. reflexivity.
Defined.

(** *** Preferences: constraints and statements *)

Lemma table_ok_unique_user_id (rows : list (gmap string value)) :
  table_ok rows -> unique_user_id rows.
Proof.
  intros (_ & _ & Hnd & _) u. induction rows as [|r rows IH]; [cbn; lia|].
  cbn [map] in Hnd. apply NoDup_cons in Hnd as [Hnotin Hnd].
  specialize (IH Hnd).
  destruct (decide (col "user_id" r = VStr u)) as [E|E].
  - rewrite filter_cons_True by exact E. cbn [length].
    destruct (filter _ rows) as [|r' l] eqn:Ef; [cbn; lia|].
    exfalso. apply Hnotin.
    assert (Hin : r' ∈ filter (fun r => col "user_id" r = VStr u) rows)
      by (rewrite Ef; left).
    apply list_elem_of_filter in Hin as [Hr' Hin].
    rewrite E, <- Hr'. apply list_elem_of_fmap_2, Hin.
  - rewrite filter_cons_False by exact E. exact IH.
Qed.

Lemma foldr_max_ge (a : Z) (ids : list Z) (z : Z) :
  z = a \/ z ∈ ids -> z <= foldr Z.max a ids.
Proof.
  induction ids as [|b ids IH]; cbn [foldr].
  - intros [-> | H]; [lia|inversion H].
  - intros [-> | H].
    + specialize (IH (or_introl eq_refl)). lia.
    + apply elem_of_cons in H as [-> | H]; [lia|].
      specialize (IH (or_intror H)). lia.
Qed.

(** The id SQLite assigns is larger than every id in use. *)
Lemma next_id_fresh (ids : list Z) (z : Z) : z ∈ ids -> z < next_id ids.
Proof.
  destruct ids as [|a ids]; [intros H; inversion H|].
  intros H. cbn [next_id]. apply elem_of_cons in H.
  pose proof (foldr_max_ge a ids z H). lia.
Qed.

(** From 1 on, assigned ids stay positive, hence truthy. *)
Lemma next_id_truthy (ids : list Z) :
  Forall (fun z => 1 <= z) ids -> truthy (VInt (next_id ids)) = true.
Proof.
  intros H. cbn [truthy]. apply negb_true_iff, Z.eqb_neq.
  destruct ids as [|a ids]; [discriminate|].
  apply Forall_cons in H as [Ha _]. cbn [next_id].
  pose proof (foldr_max_ge a ids a (or_introl eq_refl)). lia.
Qed.

Lemma col_id_fresh (rows : list (gmap string value)) :
  Forall is_int (map (col "id") rows) ->
  VInt (next_id (map row_id rows)) ∉ map (col "id") rows.
Proof.
  intros Hint Hin. apply list_elem_of_fmap in Hin as (r & Hr & Hin).
  assert (Hi : row_id r = next_id (map row_id rows))
    by (unfold row_id; rewrite <- Hr; reflexivity).
  pose proof (next_id_fresh (map row_id rows) (row_id r)
                (list_elem_of_fmap_2 _ _ _ Hin)).
  lia.
Qed.

Lemma select_user_preferences_nil (user_id : string) (d : db) :
  select_user_preferences user_id d = []
  <-> VStr user_id ∉ map (col "user_id") (user_preferences d).
Proof.
  unfold select_user_preferences. split.
  - intros Hn Hin. apply list_elem_of_fmap in Hin as (r & Hr & Hin).
    assert (H : r ∈ filter (fun r => col "user_id" r = VStr user_id)
                      (user_preferences d))
      by (apply list_elem_of_filter; auto).
    rewrite Hn in H. inversion H.
  - intros Hn. destruct (filter _ _) as [|r l] eqn:Ef; [reflexivity|].
    exfalso. apply Hn.
    assert (H : r ∈ filter (fun r => col "user_id" r = VStr user_id)
                      (user_preferences d))
      by (rewrite Ef; left).
    apply list_elem_of_filter in H as [Hr Hin].
    rewrite <- Hr. apply list_elem_of_fmap_2, Hin.
Qed.

(** What a successful INSERT into [user_preferences] leaves. *)
Lemma insert_user_preferences_ok (values : gmap string value) (now : Z) (d d' : db) :
  insert_user_preferences values now d = Ok d' ->
  exists id,
    user_preferences d'
    = user_preferences d ++ [<["id" := id]> (values ∪ column_defaults now)]
    /\ table_ok (user_preferences d')
    /\ watchlists d' = watchlists d /\ search_history d' = search_history d.
Proof.
  unfold insert_user_preferences.
  destruct (decide (known_columns values)); [|discriminate].
  destruct (decide (bindable values)); [|discriminate].
  match goal with |- context [<["id" := ?i]> _] => set (id := i) end.
  destruct (decide (table_ok _)) as [Hok|]; [|discriminate].
  intros [= <-]. exists id. cbn. auto.
Qed.

(** What a successful UPDATE of the rows of a user leaves. *)
Lemma update_user_preferences_where_ok (user_id : string)
    (values : gmap string value) (d d' : db) :
  update_user_preferences_where user_id values d = Ok d' ->
  user_preferences d'
  = map (fun r => if decide (col "user_id" r = VStr user_id)
                  then values ∪ r else r) (user_preferences d)
  /\ table_ok (user_preferences d')
  /\ watchlists d' = watchlists d /\ search_history d' = search_history d.
Proof.
  unfold update_user_preferences_where.
  destruct (decide (values = ∅)); [discriminate|].
  destruct (decide (known_columns values)); [|discriminate].
  destruct (decide (bindable values)); [|discriminate].
  destruct (decide (table_ok _)) as [Hok|]; [|discriminate].
  intros [= <-]. cbn. auto.
Qed.

(** A dictionary of values of the types of their columns can be bound. *)
Lemma typed_binds (c : string) (v : value) : typed c v -> binds c v.
Proof.
  unfold typed, binds. destruct v, (column_type c); try tauto;
    intros H; try split; try exact H; discriminate.
Qed.

Lemma well_typed_bindable (values : gmap string value) :
  well_typed values -> bindable values.
Proof. intros H c v Hv. apply typed_binds, (H c v Hv). Qed.

Lemma bindable_user_id (user_id : string) (values : gmap string value) :
  bindable values -> bindable (<["user_id" := VStr user_id]> values).
Proof.
  intros H. apply map_Forall_insert_2; [|exact H]. cbn. discriminate.
Qed.

Lemma well_typed_column_defaults (now : Z) : well_typed (column_defaults now).
Proof.
  unfold column_defaults, base_prefs.
  repeat (apply map_Forall_insert_2;
            [vm_compute; first [exact I | split; [discriminate|reflexivity]]|]).
  apply map_Forall_empty.
Qed.

(** Every outcome of [update_user_preferences]: it returns False and
    leaves the store as it was, or its statement was accepted and
    committed and it returns True.  With a storage that does not fail the
    second is what happens when the statement is accepted. *)
Lemma update_user_preferences_cases (preferences : gmap string value)
    (user_id : string) (now : Z) (w : world) :
  exists r w',
    update_user_preferences preferences user_id now w = (Ok r, w')
    /\ ((r = false /\ store w' = store w)
        \/ (r = true
            /\ upsert_statement preferences user_id now (store w) (store w)
               = Ok (store w')))
    /\ (faults w = [] ->
          faults w' = []
          /\ forall d', upsert_statement preferences user_id now (store w) (store w)
                        = Ok d' -> r = true).
Proof.
  unfold update_user_preferences, try_except, update_user_preferences_try,
    with_connection.
  step_storage; [|eexists _, _; split; [reflexivity|split; [left; auto|]];
                  intros H; destruct (Hh H); discriminate].
  unfold mbind, execute_select, mbind.
  step_storage; [|eexists _, _; split; [reflexivity|split; [left; auto|]];
                  intros H; destruct (Hh0 (proj2 (Hh H))); discriminate].
  unfold execute, commit, mbind.
  step_storage; [|eexists _, _; split; [reflexivity|split; [left; auto|]];
                  intros H; destruct (Hh1 (proj2 (Hh0 (proj2 (Hh H))))); discriminate].
  fold (upsert_statement preferences user_id now (store w)).
  destruct (upsert_statement preferences user_id now (store w) (store w))
    as [d'|e] eqn:Es.
  2:{ eexists _, _. split; [reflexivity|]. split; [left; auto|].
      intros H. cbn. split; [|discriminate]. apply Hh1, Hh0, Hh, H. }
  step_storage; [|eexists _, _; split; [reflexivity|split; [left; auto|]];
                  intros H;
                  destruct (Hh2 (proj2 (Hh1 (proj2 (Hh0 (proj2 (Hh H)))))));
                  discriminate].
  eexists _, _. split; [reflexivity|]. split; [right; auto|].
  intros H. cbn. split; [|reflexivity].
  apply Hh2, Hh1, Hh0, Hh, H.
Qed.

Lemma col_user_id_inserted (id : value) (user_id : string)
    (values defaults : gmap string value) :
  col "user_id" (<["id" := id]> (<["user_id" := VStr user_id]> values ∪ defaults))
  = VStr user_id.
Proof.
  unfold col. rewrite lookup_insert_ne by discriminate.
  rewrite lookup_union_l' by (rewrite lookup_insert_eq; eauto).
  rewrite lookup_insert_eq. reflexivity.
Qed.


Lemma truthy_scalar_id_nonempty (rows : list (gmap string value)) :
  truthy (scalar_id rows) = true -> rows <> [].
Proof. destruct rows; [discriminate|discriminate]. Qed.

Lemma col_union_r (c : string) (values r : gmap string value) :
  values !! c = None -> col c (values ∪ r) = col c r.
Proof. intros H. unfold col. rewrite lookup_union_r by exact H. reflexivity. Qed.

(** An UPDATE that names known columns other than the keys keeps the
    constraints and is accepted. *)
Lemma update_user_preferences_where_accepts (user_id : string)
    (values : gmap string value) (d : db) :
  values <> ∅ -> bindable values ->
  known_columns values -> values !! "id" = None -> values !! "user_id" = None ->
  table_ok (user_preferences d) ->
  exists d', update_user_preferences_where user_id values d = Ok d'.
Proof.
  intros Hne Hb Hk Hid Hu Hok. unfold update_user_preferences_where.
  destruct (decide (values = ∅)); [contradiction|].
  destruct (decide (known_columns values)); [|contradiction].
  destruct (decide (bindable values)); [|contradiction].
  destruct (decide (table_ok _)) as [|Hn]; [eauto|].
  exfalso. apply Hn. clear Hn. unfold table_ok.
  assert (Hc : forall c, values !! c = None ->
            map (col c) (map (fun r => if decide (col "user_id" r = VStr user_id)
                                       then values ∪ r else r) (user_preferences d))
            = map (col c) (user_preferences d)).
  { intros c Hcn. rewrite map_map. apply map_ext. intros r.
    destruct (decide _); [apply col_union_r, Hcn|reflexivity]. }
  rewrite (Hc "id" Hid), (Hc "user_id" Hu). exact Hok.
Qed.

(** The INSERT of a row for a user who has none, with the id left to
    SQLite, keeps the constraints and is accepted. *)
Lemma insert_user_preferences_accepts (user_id : string)
    (values : gmap string value) (now : Z) (d : db) :
  bindable values ->
  known_columns values -> values !! "id" = None ->
  select_user_preferences user_id d = [] ->
  table_ok (user_preferences d) ->
  insert_user_preferences (<["user_id" := VStr user_id]> values) now d
  = Ok (mkDb (watchlists d) (search_history d)
             (user_preferences d
              ++ [<["id" := VInt (next_id (map row_id (user_preferences d)))]>
                    (<["user_id" := VStr user_id]> values ∪ column_defaults now)])).
Proof.
  intros Hb Hk Hid Hsel (Hnd & Hint & Hnu & Hnn). unfold insert_user_preferences.
  destruct (decide (known_columns _)) as [|Hn].
  2:{ exfalso. apply Hn. apply map_Forall_insert_2; [|exact Hk].
      unfold columns. set_solver. }
  destruct (decide (bindable _)) as [|Hn];
    [|exfalso; apply Hn, bindable_user_id, Hb].
  rewrite lookup_insert_ne by discriminate. rewrite Hid.
  destruct (decide (table_ok _)) as [|Hn]; [reflexivity|].
  exfalso. apply Hn. clear Hn. unfold table_ok. rewrite !map_app. cbn [map].
  rewrite col_user_id_inserted.
  assert (Hcid : forall m : gmap string value,
            col "id" (<["id" := VInt (next_id (map row_id (user_preferences d)))]> m)
            = VInt (next_id (map row_id (user_preferences d)))).
  { intros m. unfold col. rewrite lookup_insert_eq. reflexivity. }
  rewrite Hcid. repeat split.
  - apply NoDup_app. split; [exact Hnd|]. split; [|apply NoDup_singleton].
    intros x Hx Hin. apply list_elem_of_singleton in Hin as ->.
    exact (col_id_fresh _ Hint Hx).
  - apply Forall_app. split; [exact Hint|]. repeat constructor.
  - apply NoDup_app. split; [exact Hnu|]. split; [|apply NoDup_singleton].
    intros x Hx Hin. apply list_elem_of_singleton in Hin as ->.
    apply select_user_preferences_nil in Hsel. contradiction.
  - apply Forall_app. split; [exact Hnn|]. repeat constructor. discriminate.
Qed.




(** *** Reading preferences *)

Lemma default_prefs_union (user_id : string) (now : Z) :
  default_prefs user_id now ∪ column_defaults now = default_prefs user_id now.
Proof.
  unfold default_prefs. rewrite <- insert_union_l, map_union_idemp. reflexivity.
Qed.

Lemma storage_call_healthy (s t : db) :
  storage_call (mkWorld s t []) = (Ok tt, mkWorld s t []).
Proof. reflexivity. Qed.

Lemma get_connection_healthy (s t : db) :
  get_connection (mkWorld s t []) = (Ok tt, mkWorld s t []).
Proof. reflexivity. Qed.

Lemma get_user_preferences_absent (user_id : string) (now : Z) (d : db) :
  table_ok (user_preferences d) ->
  select_user_preferences user_id d = [] ->
  get_user_preferences user_id now (healthy d)
  = (Ok (default_prefs user_id now),
     healthy (mkDb (watchlists d) (search_history d)
                   (user_preferences d ++ [default_row user_id now d]))).
Proof.
  intros Hok Hsel.
  unfold get_user_preferences, try_except, get_user_preferences_try,
    with_connection, healthy.
  rewrite get_connection_healthy. cbn [store txn faults].
  unfold mbind, execute_select, mbind. rewrite storage_call_healthy.
  cbn [store txn faults]. rewrite Hsel. cbn [head].
  unfold execute, commit, mbind. rewrite storage_call_healthy.
  cbn [store txn faults]. unfold default_prefs at 1.
  rewrite (insert_user_preferences_accepts user_id (column_defaults now) now d);
    [|apply well_typed_bindable, well_typed_column_defaults
     |apply (bool_decide_unpack _); vm_compute; reflexivity
     |reflexivity|exact Hsel|exact Hok].
  rewrite storage_call_healthy. cbn [store txn faults ret].
  fold (default_prefs user_id now). rewrite default_prefs_union. reflexivity.
Qed.

Lemma get_user_preferences_present (user_id : string) (now : Z) (d : db)
    (r : gmap string value) :
  head (select_user_preferences user_id d) = Some r ->
  get_user_preferences user_id now (healthy d) = (Ok (row_to_dict r), healthy d).
Proof.
  intros Hsel.
  unfold get_user_preferences, try_except, get_user_preferences_try,
    with_connection, healthy.
  rewrite get_connection_healthy. cbn [store txn faults].
  unfold mbind, execute_select, mbind. rewrite storage_call_healthy.
  cbn [store txn faults]. rewrite Hsel. reflexivity.
Qed.

Lemma row_to_dict_default_row (user_id : string) (now : Z) (d : db) :
  row_to_dict (default_row user_id now d) = default_row user_id now d.
Proof.
  unfold default_row. generalize (next_id (map row_id (user_preferences d))).
  intros z. vm_compute. reflexivity.
Qed.

Lemma select_user_preferences_default_row (user_id : string) (now : Z) (d : db) :
  select_user_preferences user_id d = [] ->
  select_user_preferences user_id
    (mkDb (watchlists d) (search_history d)
          (user_preferences d ++ [default_row user_id now d]))
  = [default_row user_id now d].
Proof.
  intros Hsel. unfold select_user_preferences in *. cbn [user_preferences].
  rewrite filter_app, Hsel. cbn [app].
  rewrite filter_cons_True; [reflexivity|].
  unfold default_row, default_prefs, col.
  rewrite lookup_insert_ne by discriminate. rewrite lookup_insert_eq.
  reflexivity.
Qed.

(** C10: for a user without a preferences row, on a table that meets its
    constraints and a storage that does not fail, [get_user_preferences]
    appends a row holding the defaults ('AAPL', '1 Year', 'light', 1, 1)
    under a fresh id, so the store changes, and returns the defaults; the
    next read finds that row, returns it and stores nothing. *)
Theorem get_user_preferences_inserts_defaults
    (user_id : string) (now now' : Z) (d : db) :
  table_ok (user_preferences d) ->
  select_user_preferences user_id d = [] ->
  exists w1 w2,
    get_user_preferences user_id now (healthy d)
    = (Ok (default_prefs user_id now), w1)
    /\ user_preferences (store w1)
       = user_preferences d ++ [default_row user_id now d]
    /\ store w1 <> d
    /\ (col "user_id" (default_row user_id now d) = VStr user_id
        /\ col "default_ticker" (default_row user_id now d) = VStr "AAPL"
        /\ col "default_period" (default_row user_id now d) = VStr "1 Year"
        /\ col "theme" (default_row user_id now d) = VStr "light"
        /\ col "show_ma50" (default_row user_id now d) = VInt 1
        /\ col "show_ma200" (default_row user_id now d) = VInt 1)
    /\ select_user_preferences user_id (store w1) = [default_row user_id now d]
    /\ get_user_preferences user_id now' w1
       = (Ok (default_row user_id now d), w2)
    /\ store w2 = store w1.
Proof.
  intros Hok Hsel.
  exists (healthy (mkDb (watchlists d) (search_history d)
                     (user_preferences d ++ [default_row user_id now d]))).
  exists (healthy (mkDb (watchlists d) (search_history d)
                     (user_preferences d ++ [default_row user_id now d]))).
  split; [apply get_user_preferences_absent; assumption|].
  cbn [store healthy user_preferences].
  split; [reflexivity|]. split.
  { intros H. apply (f_equal (fun x => length (user_preferences x))) in H.
    cbn [user_preferences] in H. rewrite length_app in H. cbn in H. lia. }
  split; [repeat split|].
  split; [apply select_user_preferences_default_row, Hsel|].
  split; [|reflexivity].
  rewrite (get_user_preferences_present user_id now' _
             (default_row user_id now d)).
  - rewrite row_to_dict_default_row. reflexivity.
  - rewrite select_user_preferences_default_row by exact Hsel. reflexivity.
Qed.

(** The first read of the preferences of 'default_user' on an empty
    database, and the read after it. *)
Lemma get_user_preferences_inserts_defaults_witness :
  exists w1 w2,
    get_user_preferences "default_user" 5 (healthy empty_db)
    = (Ok (default_prefs "default_user" 5), w1)
    /\ user_preferences (store w1) = [default_row "default_user" 5 empty_db]
    /\ get_user_preferences "default_user" 8 w1
       = (Ok (default_row "default_user" 5 empty_db), w2)
    /\ store w2 = store w1.
Proof.
  destruct (get_user_preferences_inserts_defaults "default_user" 5 8 empty_db)
    as (w1 & w2 & E1 & Er & _ & _ & _ & E2 & Es).
  - apply (bool_decide_unpack _). vm_compute. reflexivity.
  - reflexivity.
  - exists w1, w2. auto.
Defined.

(** *** What every session keeps *)

Lemma read_keeps_store {A} (query : db -> A) (dflt : A) (w : world) :
  store (snd (try_except (with_connection (execute_select query))
                         (fun _ => ret dflt) w))
  = store w.
Proof.
  unfold try_except, with_connection.
  step_storage; [|reflexivity].
  unfold execute_select, mbind. step_storage; reflexivity.
Qed.

Lemma get_recent_searches_keeps_store (user_id : string) (limit : Z) (w : world) :
  store (snd (get_recent_searches user_id limit w)) = store w.
Proof.
  unfold get_recent_searches, get_recent_searches_try.
  destruct (decide (int64 limit)); [apply read_keeps_store|].
  unfold try_except, with_connection. step_storage; reflexivity.
Qed.

Lemma write_cases (stmt : db -> result db) (w : world) :
  let w' := snd (try_except
                   (with_connection (_ <- execute stmt ;; _ <- commit ;; ret true))
                   (fun _ => ret false) w) in
  store w' = store w \/ stmt (store w) = Ok (store w').
Proof.
  unfold try_except, with_connection.
  step_storage; [|left; reflexivity].
  unfold execute, commit, mbind. step_storage; [|left; reflexivity].
  destruct (stmt (store w)) as [d'|e] eqn:Es; [|left; reflexivity].
  step_storage; [right|left]; reflexivity.
Qed.

Lemma get_user_preferences_store (user_id : string) (now : Z) (w : world) :
  let w' := snd (get_user_preferences user_id now w) in
  store w' = store w
  \/ insert_user_preferences (default_prefs user_id now) now (store w)
     = Ok (store w').
Proof.
  unfold get_user_preferences, try_except, get_user_preferences_try,
    with_connection.
  step_storage; [|left; reflexivity].
  unfold execute_select, mbind. step_storage; [|left; reflexivity].
  destruct (head (select_user_preferences user_id (store w)));
    [left; reflexivity|].
  unfold execute, commit, mbind. step_storage; [|left; reflexivity].
  destruct (insert_user_preferences _ now (store w)) as [d'|e] eqn:Es;
    [|left; reflexivity].
  step_storage; [right|left]; reflexivity.
Qed.

Lemma watch_count_insert_other (u t u' t' : string) (now : Z) (d d' : db) :
  insert_watchlists u t now d = Ok d' ->
  ~ (u = u' /\ t = t') ->
  watch_count u' t' d' = watch_count u' t' d.
Proof.
  unfold insert_watchlists, watch_count. intros [= <-] Hne. cbn [watchlists].
  rewrite filter_app, length_app, filter_cons_False; [cbn; lia|].
  cbn. exact Hne.
Qed.

Lemma watch_count_delete (u t u' t' : string) (d d' : db) :
  delete_watchlists u t d = Ok d' ->
  (watch_count u' t' d' <= watch_count u' t' d)%nat.
Proof.
  unfold delete_watchlists, watch_count. intros [= <-]. cbn [watchlists].
  generalize (watchlists d). intros l. induction l as [|r l IH]; [cbn; lia|].
  rewrite (filter_cons (fun r => ~ (w_user_id r = u /\ w_ticker r = t))).
  destruct (decide (~ (w_user_id r = u /\ w_ticker r = t)));
    rewrite !(filter_cons (fun r => w_user_id r = u' /\ w_ticker r = t'));
    destruct (decide (w_user_id r = u' /\ w_ticker r = t'));
    cbn [length]; lia.
Qed.

Lemma perform_keeps_inv (c : call) (w : world) :
  store_inv (store w) -> store_inv (store (perform c w)).
Proof.
  intros [Hw Hp]. destruct c as [u|t u now|t u|t u now|u limit|u now|p u now];
    cbn [perform].
  - unfold get_watchlist, get_watchlist_try. rewrite read_keeps_store. split; auto.
  - destruct (add_to_watchlist_cases t u now w)
      as (r & w' & -> & [[_ Hs] | (_ & Hn & Hi)] & _); cbn [snd].
    + rewrite Hs. split; auto.
    + split.
      * intros u' t'. destruct (decide (u = u' /\ t = t')) as [[<- <-]|Hne].
        -- rewrite (watch_count_insert _ _ _ _ _ Hi).
           apply select_watchlist_entry_None in Hn. lia.
        -- rewrite (watch_count_insert_other _ _ _ _ _ _ _ Hi Hne). apply Hw.
      * unfold insert_watchlists in Hi. injection Hi as <-. exact Hp.
  - destruct (write_cases (delete_watchlists u t) w) as [Hs | Hd];
      fold (remove_from_watchlist_try t u) in *;
      fold (remove_from_watchlist t u) in *.
    + rewrite Hs. split; auto.
    + split.
      * intros u' t'. pose proof (watch_count_delete _ _ u' t' _ _ Hd).
        specialize (Hw u' t'). lia.
      * unfold delete_watchlists in Hd. injection Hd as <-. exact Hp.
  - destruct (write_cases (insert_search_history u t now) w) as [Hs | Hd];
      fold (add_to_search_history_try t u now) in *;
      fold (add_to_search_history t u now) in *.
    + rewrite Hs. split; auto.
    + unfold insert_search_history in Hd. injection Hd as <-. split; auto.
  - rewrite get_recent_searches_keeps_store. split; auto.
  - destruct (get_user_preferences_store u now w) as [Hs | Hi].
    + rewrite Hs. split; auto.
    + apply insert_user_preferences_ok in Hi as (id & _ & Hok & Hwl & _).
      split; [|exact Hok]. intros u' t'. unfold watch_count. rewrite Hwl.
      apply Hw.
  - destruct (update_user_preferences_cases p u now w)
      as (r & w' & -> & [[_ Hs] | [_ Hst]] & _); cbn [snd].
    + rewrite Hs. split; auto.
    + unfold upsert_statement in Hst.
      destruct (truthy _).
      * apply update_user_preferences_where_ok in Hst as (_ & Hok & Hwl & _).
        split; [|exact Hok]. intros u' t'. unfold watch_count. rewrite Hwl.
        apply Hw.
      * apply insert_user_preferences_ok in Hst as (id & _ & Hok & Hwl & _).
        split; [|exact Hok]. intros u' t'. unfold watch_count. rewrite Hwl.
        apply Hw.
Qed.

(** Whatever calls a session makes and whatever faults they meet, the
    store it builds from the empty database holds each watchlist pair at
    most once and a preferences table that meets its constraints, so at
    most one row per user. *)
Lemma session_keeps_inv (calls : list (call * list fault)) :
  store_inv (session calls empty_db)
  /\ unique_user_id (user_preferences (session calls empty_db)).
Proof.
  assert (H : forall d, store_inv d -> store_inv (session calls d)).
  { induction calls as [|[c fs] calls IH]; intros d Hd; [exact Hd|].
    cbn [session fold_left fst snd]. apply IH.
    exact (perform_keeps_inv c (mkWorld d d fs) Hd). }
  assert (H0 : store_inv empty_db).
  { split; [intros u t; cbn; lia|].
    apply (bool_decide_unpack _). vm_compute. reflexivity. }
  split; [apply H, H0|].
  apply table_ok_unique_user_id, H, H0.
Qed.

(** *** Runs on a storage that does not fail *)

Lemma get_watchlist_healthy (user_id : string) (d : db) :
  get_watchlist user_id (healthy d)
  = (Ok (select_watchlist_tickers user_id d), healthy d).
Proof. reflexivity. Qed.

Lemma add_to_watchlist_healthy (ticker user_id : string) (now : Z) (d : db) :
  add_to_watchlist ticker user_id now (healthy d)
  = match select_watchlist_entry user_id ticker d with
    | None =>
        (Ok true,
         healthy (mkDb (watchlists d
                        ++ [mkWatch (next_id (map w_id (watchlists d)))
                                    user_id ticker now])
                       (search_history d) (user_preferences d)))
    | Some _ => (Ok false, healthy d)
    end.
Proof.
  unfold add_to_watchlist, try_except, add_to_watchlist_try, with_connection,
    healthy.
  rewrite get_connection_healthy. cbn [store txn faults].
  unfold mbind, execute_select, mbind. rewrite storage_call_healthy.
  cbn [store txn faults].
  destruct (select_watchlist_entry user_id ticker d); reflexivity.
Qed.

Lemma remove_from_watchlist_healthy (ticker user_id : string) (d : db) :
  remove_from_watchlist ticker user_id (healthy d)
  = (Ok true,
     healthy (mkDb (filter (fun r => ~ (w_user_id r = user_id /\ w_ticker r = ticker))
                           (watchlists d))
                   (search_history d) (user_preferences d))).
Proof. reflexivity. Qed.

Lemma add_to_search_history_healthy (ticker user_id : string) (now : Z) (d : db) :
  add_to_search_history ticker user_id now (healthy d)
  = (Ok true,
     healthy (mkDb (watchlists d)
                   (search_history d
                    ++ [mkSearch (next_id (map s_id (search_history d)))
                                 user_id ticker now])
                   (user_preferences d))).
Proof. reflexivity. Qed.

Lemma get_recent_searches_healthy (user_id : string) (limit : Z) (d : db) :
  int64 limit ->
  get_recent_searches user_id limit (healthy d)
  = (Ok (select_recent_searches user_id limit d), healthy d).
Proof.
  intros Hl. unfold get_recent_searches, get_recent_searches_try.
  destruct (decide (int64 limit)); [reflexivity|contradiction].
Qed.

(** A limit beyond 64 bits: the query is never executed and the call
    returns the empty list. *)
Lemma get_recent_searches_overflow (user_id : string) (limit : Z) (w : world) :
  ~ int64 limit ->
  exists w', get_recent_searches user_id limit w = (Ok [], w')
             /\ store w' = store w.
Proof.
  intros Hl. unfold get_recent_searches, get_recent_searches_try.
  destruct (decide (int64 limit)); [contradiction|].
  unfold try_except, with_connection.
  step_storage; eexists; split; reflexivity.
Qed.

(** *** Watchlist round trips *)

Lemma select_watchlist_entry_tickers (user_id ticker : string) (d : db) :
  select_watchlist_entry user_id ticker d = None
  <-> ticker ∉ select_watchlist_tickers user_id d.
Proof.
  unfold select_watchlist_entry, select_watchlist_tickers.
  generalize (watchlists d). intros l. split.
  - intros Hn Hin. apply list_elem_of_fmap in Hin as (r & -> & Hin).
    apply list_elem_of_filter in Hin as [Hu Hin].
    assert (H : r ∈ filter (fun r0 => w_user_id r0 = user_id
                                      /\ w_ticker r0 = w_ticker r) l)
      by (apply list_elem_of_filter; auto).
    destruct (filter _ l); [inversion H|discriminate].
  - intros Hn.
    destruct (filter (fun r => w_user_id r = user_id /\ w_ticker r = ticker) l)
      as [|r l'] eqn:Ef; [reflexivity|].
    exfalso. apply Hn.
    assert (H : r ∈ filter (fun r => w_user_id r = user_id /\ w_ticker r = ticker) l)
      by (rewrite Ef; left).
    apply list_elem_of_filter in H as [[Hu Ht] Hin]. rewrite <- Ht.
    apply list_elem_of_fmap_2, list_elem_of_filter. auto.
Qed.

(** X8: on a storage that does not fail, after [add_to_watchlist] the
    ticker is in what [get_watchlist] returns for the user: a call that
    returns True has put it at the end of the list, a call that returns
    False found it there and left the list as it was. *)
Theorem watchlist_add_then_read (ticker user_id : string) (now : Z) (d : db) :
  exists (r : bool) (w1 : world) (l : list string),
    add_to_watchlist ticker user_id now (healthy d) = (Ok r, w1)
    /\ get_watchlist user_id w1 = (Ok l, w1)
    /\ ticker ∈ l
    /\ (r = true ->
        (ticker ∉ select_watchlist_tickers user_id d)
        /\ l = select_watchlist_tickers user_id d ++ [ticker])
    /\ (r = false -> l = select_watchlist_tickers user_id d).
Proof.
  rewrite add_to_watchlist_healthy.
  destruct (select_watchlist_entry user_id ticker d) as [i|] eqn:Ex.
  - exists false, (healthy d), (select_watchlist_tickers user_id d).
    split; [reflexivity|]. split; [apply get_watchlist_healthy|].
    split; [|split; [discriminate|reflexivity]].
    destruct (decide (ticker ∈ select_watchlist_tickers user_id d)) as [|Hn];
      [assumption|].
    apply select_watchlist_entry_tickers in Hn. congruence.
  - eexists true, _, _. split; [reflexivity|].
    split; [apply get_watchlist_healthy|].
    unfold select_watchlist_tickers. cbn [watchlists].
    rewrite filter_app, filter_cons_True by reflexivity.
    rewrite filter_nil, fmap_app. cbn [fmap list_fmap w_ticker].
    split; [apply elem_of_app; right; left|].
    split; [|discriminate]. intros _. split; [|reflexivity].
    apply select_watchlist_entry_tickers, Ex.
Qed.

Lemma tickers_after_delete (user_id ticker : string) (l : list watch_row) :
  map w_ticker
    (filter (fun r => w_user_id r = user_id)
       (filter (fun r => ~ (w_user_id r = user_id /\ w_ticker r = ticker)) l))
  = filter (fun t => t <> ticker)
      (map w_ticker (filter (fun r => w_user_id r = user_id) l)).
Proof.
  induction l as [|r l IH]; [reflexivity|].
  rewrite (filter_cons (fun r => ~ (w_user_id r = user_id /\ w_ticker r = ticker))).
  rewrite (filter_cons (fun r => w_user_id r = user_id) r l).
  destruct (decide (~ (w_user_id r = user_id /\ w_ticker r = ticker))) as [Hk|Hk];
    destruct (decide (w_user_id r = user_id)) as [Hu|Hu].
  - rewrite filter_cons_True by exact Hu. cbn [map].
    rewrite filter_cons_True by (intros Ht; apply Hk; auto).
    rewrite IH. reflexivity.
  - rewrite filter_cons_False by exact Hu. exact IH.
  - cbn [map]. rewrite filter_cons_False; [exact IH|].
    intros Hne. apply Hk. intros [_ Ht]. contradiction.
  - exfalso. apply Hk. intros [Hu' _]. contradiction.
Qed.

Lemma tickers_of_other_user (u u' ticker : string) (l : list watch_row) :
  u' <> u ->
  filter (fun r => w_user_id r = u')
    (filter (fun r => ~ (w_user_id r = u /\ w_ticker r = ticker)) l)
  = filter (fun r => w_user_id r = u') l.
Proof.
  intros Hne. induction l as [|r l IH]; [reflexivity|].
  rewrite (filter_cons (fun r => ~ (w_user_id r = u /\ w_ticker r = ticker))).
  destruct (decide (~ (w_user_id r = u /\ w_ticker r = ticker))) as [Hk|Hk].
  - rewrite !(filter_cons (fun r => w_user_id r = u')). rewrite IH. reflexivity.
  - rewrite (filter_cons_False (fun r => w_user_id r = u') r l); [exact IH|].
    intros Hu. apply Hk. intros [Hu' _]. congruence.
Qed.

(** X9: on a storage that does not fail, [remove_from_watchlist] returns
    True whether or not the ticker was stored; afterwards the user's list
    is the old one without the ticker, in the same order, and the lists of
    the other users are as they were. *)
Theorem watchlist_remove_then_read (ticker user_id : string) (d : db) :
  exists w1,
    remove_from_watchlist ticker user_id (healthy d) = (Ok true, w1)
    /\ get_watchlist user_id w1
       = (Ok (filter (fun t => t <> ticker) (select_watchlist_tickers user_id d)),
          w1)
    /\ (forall u', u' <> user_id ->
          select_watchlist_tickers u' (store w1) = select_watchlist_tickers u' d).
Proof.
  eexists. split; [apply remove_from_watchlist_healthy|].
  rewrite get_watchlist_healthy. unfold select_watchlist_tickers.
  cbn [store healthy watchlists]. split.
  - rewrite tickers_after_delete. reflexivity.
  - intros u' Hne. rewrite tickers_of_other_user by exact Hne. reflexivity.
Qed.

Lemma filter_keeps_all {A} (P : A -> Prop) `{!forall x, Decision (P x)} (l : list A) :
  Forall P l -> filter P l = l.
Proof.
  induction 1 as [|x l Hx _ IH]; [reflexivity|].
  rewrite filter_cons_True by exact Hx. rewrite IH. reflexivity.
Qed.

(** X10: on a storage that does not fail, removing a ticker right after
    adding it to a list that did not hold it restores the store. *)
Theorem remove_undoes_add (ticker user_id : string) (now : Z) (d : db) :
  ticker ∉ select_watchlist_tickers user_id d ->
  exists w1 w2,
    add_to_watchlist ticker user_id now (healthy d) = (Ok true, w1)
    /\ remove_from_watchlist ticker user_id w1 = (Ok true, w2)
    /\ store w2 = d.
Proof.
  intros Hn. pose proof Hn as Hx. apply select_watchlist_entry_tickers in Hx.
  rewrite add_to_watchlist_healthy, Hx.
  eexists _, _. split; [reflexivity|].
  split; [apply remove_from_watchlist_healthy|].
  cbn [store healthy watchlists search_history user_preferences].
  rewrite filter_app, filter_cons_False, filter_nil, app_nil_r by (cbn; tauto).
  rewrite filter_keeps_all; [destruct d; reflexivity|].
  apply Forall_forall. intros r Hr [Hu Ht]. apply Hn. rewrite <- Ht.
  apply list_elem_of_fmap_2, list_elem_of_filter. auto.
Qed.

Lemma remove_undoes_add_witness :
  exists w1 w2,
    add_to_watchlist "TSLA" "default_user" 7 (healthy empty_db) = (Ok true, w1)
    /\ remove_from_watchlist "TSLA" "default_user" w1 = (Ok true, w2)
    /\ store w2 = empty_db.
Proof.
  apply remove_undoes_add. vm_compute. intros H. inversion H.
Defined.

(** *** Search history *)

(** Every outcome of a read: the answer of the query on the store, or the
    default; the store stays as it was. *)
Lemma read_cases {A} (query : db -> A) (dflt : A) (w : world) :
  exists v w',
    try_except (with_connection (execute_select query)) (fun _ => ret dflt) w
    = (Ok v, w')
    /\ store w' = store w
    /\ (v = query (store w) \/ v = dflt)
    /\ (faults w = [] -> v = query (store w)).
Proof.
  unfold try_except, with_connection.
  step_storage;
    [|eexists _, _; split; [reflexivity|]; split; [reflexivity|];
      split; [right; reflexivity|];
      intros H; destruct (Hh H); discriminate].
  unfold execute_select, mbind.
  step_storage; eexists _, _; (split; [reflexivity|]); (split; [reflexivity|]).
  - split; [left; reflexivity|reflexivity].
  - split; [right; reflexivity|].
    intros H. destruct (Hh0 (proj2 (Hh H))). discriminate.
Qed.

Lemma insert_by_time_elem (r x : search_row) (l : list search_row) :
  x ∈ insert_by_time r l <-> x = r \/ x ∈ l.
Proof.
  induction l as [|y l IH]; cbn [insert_by_time].
  - rewrite list_elem_of_singleton. split; [auto|]. intros [H|H]; [auto|inversion H].
  - destruct (s_searched_at y <=? s_searched_at r).
    + rewrite elem_of_cons. reflexivity.
    + rewrite !elem_of_cons, IH. tauto.
Qed.

Lemma insert_by_time_desc (r : search_row) (l : list search_row) :
  desc_by s_searched_at l -> desc_by s_searched_at (insert_by_time r l).
Proof.
  induction l as [|y l IH]; intros Hl; cbn [insert_by_time].
  - cbn. auto.
  - destruct Hl as [Hy Hl].
    destruct (Z.leb_spec (s_searched_at y) (s_searched_at r)) as [Hlt|Hge].
    + cbn [desc_by]. split; [|split; assumption].
      constructor; [lia|]. eapply Forall_impl; [exact Hy|]. cbn. intros; lia.
    + cbn [desc_by]. split; [|apply IH, Hl].
      apply Forall_forall. intros x Hx. apply insert_by_time_elem in Hx as [->|Hx];
        [lia|]. rewrite Forall_forall in Hy. apply Hy, Hx.
Qed.

Lemma foldr_insert_desc (l : list search_row) :
  desc_by s_searched_at (foldr insert_by_time [] l).
Proof.
  induction l as [|x l IH]; cbn [foldr]; [exact I|].
  apply insert_by_time_desc, IH.
Qed.

Lemma foldr_insert_elem (x : search_row) (l : list search_row) :
  x ∈ foldr insert_by_time [] l <-> x ∈ l.
Proof.
  induction l as [|y l IH]; cbn [foldr]; [reflexivity|].
  rewrite insert_by_time_elem, elem_of_cons, IH. reflexivity.
Qed.

Lemma desc_by_take {A} (key : A -> Z) (n : nat) (l : list A) :
  desc_by key l -> desc_by key (take n l).
Proof.
  revert n. induction l as [|a l IH]; intros n Hl; [destruct n; exact I|].
  destruct n as [|n]; [exact I|]. destruct Hl as [Ha Hl].
  cbn [take desc_by]. split; [|apply IH, Hl].
  apply Forall_take, Ha.
Qed.

Lemma desc_by_map {A B} (f : A -> B) (key : B -> Z) (l : list A) :
  desc_by (fun a => key (f a)) l -> desc_by key (map f l).
Proof.
  induction l as [|a l IH]; [auto|]. intros [Ha Hl]. cbn [map desc_by].
  split; [|apply IH, Hl]. apply Forall_fmap. exact Ha.
Qed.

Lemma select_recent_searches_shape (user_id : string) (limit : Z) (d : db) :
  newest_first (select_recent_searches user_id limit d)
  /\ (0 <= limit ->
      (length (select_recent_searches user_id limit d) <= Z.to_nat limit)%nat)
  /\ (forall t time,
        (t, time) ∈ select_recent_searches user_id limit d ->
        exists r, r ∈ search_history d /\ s_user_id r = user_id
                  /\ s_ticker r = t /\ s_searched_at r = time).
Proof.
  unfold select_recent_searches, newest_first.
  set (rows := foldr insert_by_time []
                 (filter (fun r => s_user_id r = user_id) (search_history d))).
  assert (Hd : desc_by s_searched_at rows) by apply foldr_insert_desc.
  assert (He : forall x, x ∈ rows -> x ∈ search_history d /\ s_user_id x = user_id).
  { intros x Hx. apply foldr_insert_elem, list_elem_of_filter in Hx. tauto. }
  split; [|split].
  - apply desc_by_map. cbn [snd].
    destruct (limit <? 0); [exact Hd|apply desc_by_take, Hd].
  - intros Hl. destruct (Z.ltb_spec limit 0); [lia|].
    rewrite length_map, length_take. lia.
  - intros t time Hin. apply list_elem_of_fmap in Hin as (r & Hr & Hin).
    injection Hr as -> ->. exists r.
    assert (Hrows : r ∈ rows).
    { destruct (limit <? 0); [exact Hin|].
      exact (subseteq_take _ _ _ Hin). }
    destruct (He r Hrows). auto.
Qed.

(** X11: whatever the storage does, [get_recent_searches] changes nothing
    in the store and returns searches of that user only, the latest first,
    and no more of them than the limit asks for. *)
Theorem recent_searches_shape (user_id : string) (limit : Z) (w : world) :
  exists l w',
    get_recent_searches user_id limit w = (Ok l, w')
    /\ store w' = store w
    /\ newest_first l
    /\ (0 <= limit -> (length l <= Z.to_nat limit)%nat)
    /\ (forall t time,
          (t, time) ∈ l ->
          exists r, r ∈ search_history (store w) /\ s_user_id r = user_id
                    /\ s_ticker r = t /\ s_searched_at r = time).
Proof.
  assert (Hnil : newest_first []
            /\ (0 <= limit -> (length (@nil (string * Z)) <= Z.to_nat limit)%nat)
            /\ (forall t time,
                  (t, time) ∈ @nil (string * Z) ->
                  exists r, r ∈ search_history (store w) /\ s_user_id r = user_id
                            /\ s_ticker r = t /\ s_searched_at r = time)).
  { split; [exact I|]. split; [cbn; lia|]. intros t time H. inversion H. }
  destruct (decide (int64 limit)) as [Hl|Hl].
  - destruct (read_cases (select_recent_searches user_id limit) [] w)
      as (v & w' & E & Hs & Hv & _).
    exists v, w'. unfold get_recent_searches, get_recent_searches_try.
    destruct (decide (int64 limit)); [|contradiction].
    split; [exact E|]. split; [exact Hs|].
    destruct Hv as [-> | ->]; [apply select_recent_searches_shape|exact Hnil].
  - destruct (get_recent_searches_overflow user_id limit w Hl) as (w' & E & Hs).
    exists [], w'. split; [exact E|]. split; [exact Hs|exact Hnil].
Qed.

(** X12: [add_to_search_history] always appends: on a storage that does
    not fail, two calls with the same ticker and user both return True and
    leave two new rows, under two different ids, at the end of the table. *)
Theorem search_history_appends (ticker user_id : string) (now1 now2 : Z) (d : db) :
  exists w1 w2 i1 i2,
    add_to_search_history ticker user_id now1 (healthy d) = (Ok true, w1)
    /\ add_to_search_history ticker user_id now2 w1 = (Ok true, w2)
    /\ search_history (store w2)
       = search_history d
         ++ [mkSearch i1 user_id ticker now1; mkSearch i2 user_id ticker now2]
    /\ i1 < i2
    /\ watchlists (store w2) = watchlists d
    /\ user_preferences (store w2) = user_preferences d.
Proof.
  eexists _, _, _, _. split; [apply add_to_search_history_healthy|].
  split; [apply add_to_search_history_healthy|].
  cbn [store healthy search_history watchlists user_preferences].
  split; [rewrite <- app_assoc; reflexivity|].
  split; [|split; reflexivity].
  apply next_id_fresh. rewrite map_app. cbn [map s_id].
  apply elem_of_app. right. left.
Qed.

Lemma foldr_insert_head (new : search_row) (rest l : list search_row) :
  Forall (fun x => s_searched_at x < s_searched_at new) l ->
  exists rest', foldr insert_by_time (new :: rest) l = new :: rest'.
Proof.
  induction 1 as [|x l Hx _ IH]; cbn [foldr]; [eauto|].
  destruct IH as [rest' ->]. cbn [insert_by_time].
  destruct (Z.leb_spec (s_searched_at new) (s_searched_at x)); [lia|eauto].
Qed.

(** X13: on a storage that does not fail, a search recorded at a time later
    than every stored search of the user is the first entry of
    [get_recent_searches], for every limit from 1 up to the largest
    integer the driver binds, [2^63 - 1].  With a larger limit the call
    returns the empty list. *)
Theorem latest_search_comes_first
    (ticker user_id : string) (now limit : Z) (d : db) :
  1 <= limit ->
  (forall r, r ∈ search_history d -> s_user_id r = user_id ->
             s_searched_at r < now) ->
  exists w1,
    add_to_search_history ticker user_id now (healthy d) = (Ok true, w1)
    /\ (limit < 2 ^ 63 ->
        exists l, get_recent_searches user_id limit w1 = (Ok l, w1)
                  /\ head l = Some (ticker, now))
    /\ (2 ^ 63 <= limit -> get_recent_searches user_id limit w1 = (Ok [], w1)).
Proof.
  intros Hlim Hold.
  eexists. split; [apply add_to_search_history_healthy|]. split.
  2:{ intros Hover. unfold get_recent_searches, get_recent_searches_try.
      destruct (decide (int64 limit)) as [Hl|Hl]; [unfold int64 in Hl; lia|].
      reflexivity. }
  intros Hrange. eexists.
  split; [apply get_recent_searches_healthy; unfold int64; lia|].
  unfold select_recent_searches. cbn [search_history].
  rewrite filter_app, filter_cons_True, filter_nil by reflexivity.
  rewrite foldr_app. cbn [foldr insert_by_time].
  destruct (foldr_insert_head
              (mkSearch (next_id (map s_id (search_history d))) user_id ticker now)
              [] (filter (fun r => s_user_id r = user_id) (search_history d)))
    as [rest' ->].
  { apply Forall_forall. intros x Hx. apply list_elem_of_filter in Hx as [Hu Hin].
    cbn [s_searched_at]. apply Hold; assumption. }
  destruct (Z.ltb_spec limit 0); [lia|].
  destruct (Z.to_nat limit) as [|n] eqn:En; [lia|]. reflexivity.
Qed.

(** A search of MSFT at time 9, after a search of AAPL at time 4. *)
Lemma latest_search_comes_first_witness :
  let d := mkDb [] [mkSearch 1 "default_user" "AAPL" 4] [] in
  exists w1 l,
    add_to_search_history "MSFT" "default_user" 9 (healthy d) = (Ok true, w1)
    /\ get_recent_searches "default_user" 5 w1 = (Ok l, w1)
    /\ head l = Some ("MSFT", 9).
Proof.
  cbv zeta.
  destruct (latest_search_comes_first "MSFT" "default_user" 9 5
              (mkDb [] [mkSearch 1 "default_user" "AAPL" 4] []))
    as (w1 & E & Hin & _); [lia| |].
  { intros r Hr _. apply list_elem_of_singleton in Hr as ->. cbn. lia. }
  destruct Hin as (l & El & Hl); [lia|].
  exists w1, l. auto.
Defined.

(** *** Preferences round trip *)

Lemma update_user_preferences_healthy (preferences : gmap string value)
    (user_id : string) (now : Z) (d : db) :
  update_user_preferences preferences user_id now (healthy d)
  = match upsert_statement preferences user_id now d d with
    | Ok d' => (Ok true, healthy d')
    | Raise _ => (Ok false, healthy d)
    end.
Proof.
  unfold update_user_preferences, try_except, update_user_preferences_try,
    with_connection, healthy.
  rewrite get_connection_healthy. cbn [store txn faults].
  unfold mbind, execute_select, mbind. rewrite storage_call_healthy.
  cbn [store txn faults]. unfold execute, commit, mbind.
  rewrite storage_call_healthy. cbn [store txn faults].
  fold (upsert_statement preferences user_id now d).
  destruct (upsert_statement preferences user_id now d d); reflexivity.
Qed.

Lemma row_to_dict_lookup (k : string) (r : gmap string value) :
  k ∈ columns -> row_to_dict r !! k = Some (col k r).
Proof.
  unfold columns. intros Hk.
  repeat (apply elem_of_cons in Hk as [-> | Hk]; [reflexivity|]).
  inversion Hk.
Qed.

Lemma select_after_update (user_id : string) (values : gmap string value)
    (rows : list (gmap string value)) :
  values !! "user_id" = None ->
  filter (fun r => col "user_id" r = VStr user_id)
    (map (fun r => if decide (col "user_id" r = VStr user_id)
                   then values ∪ r else r) rows)
  = map (fun r => values ∪ r)
      (filter (fun r => col "user_id" r = VStr user_id) rows).
Proof.
  intros Hu. induction rows as [|r rows IH]; [reflexivity|].
  cbn [map]. destruct (decide (col "user_id" r = VStr user_id)) as [E|E].
  - rewrite filter_cons_True by (rewrite col_union_r; assumption).
    rewrite (filter_cons_True _ r rows) by exact E.
    cbn [map]. rewrite IH. reflexivity.
  - rewrite !filter_cons_False by exact E. exact IH.
Qed.

(** X14: what [update_user_preferences] saves, [get_user_preferences]
    reads back.  On a storage that does not fail and a table that meets
    its constraints, with a dictionary of known columns other than the
    keys whose values are of the types of their columns, for a user
    without a row, or with a row of truthy id and a dictionary that is not
    empty: the update returns True, and the next read returns a dictionary
    that holds every entry of the saved one, under the user's id. *)
Theorem preferences_update_then_read
    (preferences : gmap string value) (user_id : string) (now now' : Z) (d : db) :
  table_ok (user_preferences d) ->
  known_columns preferences -> well_typed preferences ->
  preferences !! "id" = None -> preferences !! "user_id" = None ->
  select_user_preferences user_id d = []
  \/ (truthy (scalar_id (select_user_preferences user_id d)) = true
      /\ preferences <> ∅) ->
  exists w1 g,
    update_user_preferences preferences user_id now (healthy d) = (Ok true, w1)
    /\ get_user_preferences user_id now' w1 = (Ok g, w1)
    /\ (forall k v, preferences !! k = Some v -> g !! k = Some v)
    /\ g !! "user_id" = Some (VStr user_id).
Proof.
  intros Hok Hk Hwt Hid Hu Hsel. apply well_typed_bindable in Hwt.
  rewrite update_user_preferences_healthy.
  unfold upsert_statement. destruct Hsel as [Hsel | [Hsel Hnempty]].
  - rewrite Hsel. cbn [scalar_id truthy].
    rewrite (insert_user_preferences_accepts user_id preferences now d
               Hwt Hk Hid Hsel Hok).
    match goal with |- context [user_preferences d ++ [?r]] => set (row := r) end.
    assert (Hrow : col "user_id" row = VStr user_id) by apply col_user_id_inserted.
    eexists _, (row_to_dict row). split; [reflexivity|]. split.
    + apply get_user_preferences_present.
      unfold select_user_preferences in *. cbn [user_preferences].
      rewrite filter_app, Hsel, filter_cons_True by exact Hrow. reflexivity.
    + split.
      * intros k v Hv. rewrite row_to_dict_lookup by (exact (Hk k v Hv)).
        f_equal. unfold col, row.
        rewrite lookup_insert_ne by congruence.
        rewrite (lookup_union_Some_l _ _ k v); [reflexivity|].
        rewrite lookup_insert_ne by congruence. exact Hv.
      * rewrite row_to_dict_lookup by (unfold columns; set_solver).
        rewrite Hrow. reflexivity.
  - rewrite Hsel.
    destruct (update_user_preferences_where_accepts user_id preferences d
                Hnempty Hwt Hk Hid Hu Hok) as [d' Hd'].
    rewrite Hd'. apply update_user_preferences_where_ok in Hd' as (Er & _).
    pose proof (truthy_scalar_id_nonempty _ Hsel) as Hne.
    destruct (select_user_preferences user_id d) as [|r0 rest] eqn:Es;
      [contradiction|].
    assert (Hr0 : col "user_id" r0 = VStr user_id).
    { assert (H : r0 ∈ select_user_preferences user_id d) by (rewrite Es; left).
      apply list_elem_of_filter in H. tauto. }
    eexists _, (row_to_dict (preferences ∪ r0)). split; [reflexivity|]. split.
    + apply get_user_preferences_present.
      unfold select_user_preferences in *. rewrite Er.
      rewrite select_after_update by exact Hu. rewrite Es. reflexivity.
    + split.
      * intros k v Hv. rewrite row_to_dict_lookup by (exact (Hk k v Hv)).
        f_equal. unfold col.
        rewrite (lookup_union_Some_l _ _ k v Hv). reflexivity.
      * rewrite row_to_dict_lookup by (unfold columns; set_solver).
        rewrite col_union_r by exact Hu. rewrite Hr0. reflexivity.
Qed.

(** The dark theme saved for a user without a row, and read back. *)
Lemma preferences_update_then_read_witness :
  exists w1 g,
    update_user_preferences (<["theme" := VStr "dark"]> ∅) "default_user" 3
      (healthy empty_db) = (Ok true, w1)
    /\ get_user_preferences "default_user" 4 w1 = (Ok g, w1)
    /\ g !! "theme" = Some (VStr "dark")
    /\ g !! "user_id" = Some (VStr "default_user").
Proof.
  destruct (preferences_update_then_read (<["theme" := VStr "dark"]> ∅)
              "default_user" 3 4 empty_db)
    as (w1 & g & E1 & E2 & Hg & Hu).
  - apply (bool_decide_unpack _). vm_compute. reflexivity.
  - apply (bool_decide_unpack _). vm_compute. reflexivity.
  - apply (bool_decide_unpack _). vm_compute. reflexivity.
  - reflexivity.
  - reflexivity.
  - left. reflexivity.
  - exists w1, g. repeat split; try assumption. apply Hg. reflexivity.
Defined.

(** *** Users do not see each other's calls *)

Lemma user_view_insert_watchlists (u t u' : string) (now : Z) (d d' : db) :
  u <> u' -> insert_watchlists u t now d = Ok d' ->
  user_view u' d' = user_view u' d.
Proof.
  intros Hne [= <-]. unfold user_view, select_user_preferences.
  cbn [watchlists search_history user_preferences].
  rewrite filter_app, filter_cons_False, filter_nil, app_nil_r by exact Hne.
  reflexivity.
Qed.

Lemma user_view_delete_watchlists (u t u' : string) (d d' : db) :
  u <> u' -> delete_watchlists u t d = Ok d' ->
  user_view u' d' = user_view u' d.
Proof.
  intros Hne [= <-]. unfold user_view, select_user_preferences.
  cbn [watchlists search_history user_preferences].
  rewrite tickers_of_other_user by congruence. reflexivity.
Qed.

Lemma user_view_insert_search_history (u t u' : string) (now : Z) (d d' : db) :
  u <> u' -> insert_search_history u t now d = Ok d' ->
  user_view u' d' = user_view u' d.
Proof.
  intros Hne [= <-]. unfold user_view, select_user_preferences.
  cbn [watchlists search_history user_preferences].
  rewrite filter_app, filter_cons_False, filter_nil, app_nil_r by exact Hne.
  reflexivity.
Qed.

Lemma user_view_insert_user_preferences (u u' : string)
    (values : gmap string value) (now : Z) (d d' : db) :
  u <> u' ->
  insert_user_preferences (<["user_id" := VStr u]> values) now d = Ok d' ->
  user_view u' d' = user_view u' d.
Proof.
  intros Hne H. apply insert_user_preferences_ok in H as (id & Er & _ & Hw & Hs).
  unfold user_view, select_user_preferences. rewrite Er, Hw, Hs.
  rewrite filter_app, filter_cons_False, filter_nil, app_nil_r; [reflexivity|].
  rewrite col_user_id_inserted. congruence.
Qed.

Lemma user_view_update_where (u u' : string) (values : gmap string value)
    (d d' : db) :
  u <> u' -> values !! "user_id" = None ->
  update_user_preferences_where u values d = Ok d' ->
  user_view u' d' = user_view u' d.
Proof.
  intros Hne Hu H. apply update_user_preferences_where_ok in H as (Er & _ & Hw & Hs).
  unfold user_view, select_user_preferences. rewrite Er, Hw, Hs. f_equal.
  generalize (user_preferences d). intros rows.
  induction rows as [|r rows IH]; [reflexivity|]. cbn [map].
  destruct (decide (col "user_id" r = VStr u)) as [E|E].
  - rewrite !filter_cons_False; [exact IH| |].
    + rewrite E. congruence.
    + rewrite col_union_r by exact Hu. rewrite E. congruence.
  - rewrite !(filter_cons (fun r0 => col "user_id" r0 = VStr u')). rewrite IH.
    reflexivity.
Qed.

(** X15: a call made for one user changes nothing of what the store holds
    for another user (watchlist entries, searches, preferences row),
    whatever the storage does; an update is meant whose dictionary does not
    name the column [user_id]. *)
Theorem other_users_untouched (c : call) (w : world) (other : string) :
  call_user c <> other -> keeps_user_id c ->
  user_view other (store (perform c w)) = user_view other (store w).
Proof.
  intros Hne Hk.
  destruct c as [u|t u now|t u|t u now|u limit|u now|p u now];
    cbn [perform call_user keeps_user_id] in *.
  - unfold get_watchlist, get_watchlist_try. rewrite read_keeps_store. reflexivity.
  - destruct (add_to_watchlist_cases t u now w)
      as (r & w' & -> & [[_ Hs] | (_ & _ & Hi)] & _); cbn [snd].
    + rewrite Hs. reflexivity.
    + eapply user_view_insert_watchlists; eassumption.
  - destruct (write_cases (delete_watchlists u t) w) as [Hs | Hd];
      fold (remove_from_watchlist_try t u) in *;
      fold (remove_from_watchlist t u) in *.
    + rewrite Hs. reflexivity.
    + eapply user_view_delete_watchlists; eassumption.
  - destruct (write_cases (insert_search_history u t now) w) as [Hs | Hd];
      fold (add_to_search_history_try t u now) in *;
      fold (add_to_search_history t u now) in *.
    + rewrite Hs. reflexivity.
    + eapply user_view_insert_search_history; eassumption.
  - rewrite get_recent_searches_keeps_store. reflexivity.
  - destruct (get_user_preferences_store u now w) as [Hs | Hi].
    + rewrite Hs. reflexivity.
    + eapply user_view_insert_user_preferences; eassumption.
  - destruct (update_user_preferences_cases p u now w)
      as (r & w' & -> & [[_ Hs] | [_ Hst]] & _); cbn [snd].
    + rewrite Hs. reflexivity.
    + unfold upsert_statement in Hst. destruct (truthy _).
      * eapply user_view_update_where; eassumption.
      * eapply user_view_insert_user_preferences; eassumption.
Qed.

(** Adding TSLA for alice leaves what the store holds for bob. *)
Lemma other_users_untouched_witness :
  let d := mkDb [mkWatch 1 "bob" "AAPL" 2] [] [] in
  user_view "bob" (store (perform (AddToWatchlist "TSLA" "alice" 5) (healthy d)))
  = user_view "bob" d.
Proof.
  apply (other_users_untouched (AddToWatchlist "TSLA" "alice" 5)).
  - discriminate.
  - exact I.
Defined.

(** *** The retried connection *)

Lemma with_connection_closed {A} (body : M A) (s t : db) (fs : list fault) :
  head fs <> Some Closed ->
  with_connection body (mkWorld s t (Closed :: fs))
  = with_connection body (mkWorld s t fs).
Proof.
  intros H. unfold with_connection, get_connection. cbn [faults store txn].
  destruct fs as [|[] fs]; try reflexivity. contradiction.
Qed.

Lemma with_connection_closed_twice {A} (body : M A) (s t : db) (fs : list fault) :
  with_connection body (mkWorld s t (Closed :: Closed :: fs))
  = (Raise OperationalError, mkWorld s t fs).
Proof. reflexivity. Qed.

(** X16: a first connection attempt that fails on a closed engine is made
    again, and when the second attempt does not fail that way the caller
    sees the call as if the first failure had not happened; a second
    'closed' failure is not retried and the call gives its default. *)
Theorem closed_connection_is_retried
    (s t : db) (fs : list fault) (user_id ticker : string) (now limit : Z)
    (preferences : gmap string value) :
  head fs <> Some Closed ->
  (get_watchlist user_id (mkWorld s t (Closed :: fs))
   = get_watchlist user_id (mkWorld s t fs)
   /\ add_to_watchlist ticker user_id now (mkWorld s t (Closed :: fs))
      = add_to_watchlist ticker user_id now (mkWorld s t fs)
   /\ remove_from_watchlist ticker user_id (mkWorld s t (Closed :: fs))
      = remove_from_watchlist ticker user_id (mkWorld s t fs)
   /\ add_to_search_history ticker user_id now (mkWorld s t (Closed :: fs))
      = add_to_search_history ticker user_id now (mkWorld s t fs)
   /\ get_recent_searches user_id limit (mkWorld s t (Closed :: fs))
      = get_recent_searches user_id limit (mkWorld s t fs)
   /\ get_user_preferences user_id now (mkWorld s t (Closed :: fs))
      = get_user_preferences user_id now (mkWorld s t fs)
   /\ update_user_preferences preferences user_id now (mkWorld s t (Closed :: fs))
      = update_user_preferences preferences user_id now (mkWorld s t fs))
  /\ (get_watchlist user_id (mkWorld s t (Closed :: Closed :: fs))
      = (Ok [], mkWorld s t fs)
      /\ add_to_watchlist ticker user_id now (mkWorld s t (Closed :: Closed :: fs))
         = (Ok false, mkWorld s t fs)
      /\ update_user_preferences preferences user_id now
           (mkWorld s t (Closed :: Closed :: fs))
         = (Ok false, mkWorld s t fs)).
Proof.
  intros H. split.
  - unfold get_watchlist, add_to_watchlist, remove_from_watchlist,
      add_to_search_history, get_recent_searches, get_user_preferences,
      update_user_preferences, try_except,
      get_watchlist_try, add_to_watchlist_try, remove_from_watchlist_try,
      add_to_search_history_try, get_recent_searches_try,
      get_user_preferences_try, update_user_preferences_try.
    rewrite !(with_connection_closed _ s t fs H). repeat split.
  - repeat split.
Qed.

(** One 'closed' failure, then a storage that works: the stored list is
    returned. *)
Lemma closed_connection_is_retried_witness :
  let d := mkDb [mkWatch 1 "default_user" "AAPL" 2] [] [] in
  get_watchlist "default_user" (mkWorld d d [Closed]) = (Ok ["AAPL"], healthy d).
Proof.
  cbv zeta.
  rewrite (proj1 (proj1 (closed_connection_is_retried
                           (mkDb [mkWatch 1 "default_user" "AAPL" 2] [] [])
                           (mkDb [mkWatch 1 "default_user" "AAPL" 2] [] [])
                           [] "default_user" "AAPL" 0 5 ∅ ltac:(discriminate)))).
  reflexivity.
Defined.

(** *** Writes are all or nothing *)

Lemma write_result_cases (stmt : db -> result db) (w : world) :
  exists r w',
    try_except (with_connection (_ <- execute stmt ;; _ <- commit ;; ret true))
               (fun _ => ret false) w
    = (Ok r, w')
    /\ ((r = false /\ store w' = store w)
        \/ (r = true /\ stmt (store w) = Ok (store w'))).
Proof.
  unfold try_except, with_connection.
  step_storage; [|eexists _, _; split; [reflexivity|left; auto]].
  unfold execute, commit, mbind.
  step_storage; [|eexists _, _; split; [reflexivity|left; auto]].
  destruct (stmt (store w)) as [d'|e] eqn:Es;
    [|eexists _, _; split; [reflexivity|left; auto]].
  step_storage; eexists _, _; (split; [reflexivity|]); [right|left]; auto.
Qed.

(** X17: a write that returns False has changed nothing in the store, and
    one that returns True has committed exactly its statement, whatever
    faults the storage met: an insert that was executed but could not be
    committed is dropped when the connection is left. *)
Theorem writes_are_all_or_nothing
    (ticker user_id : string) (now : Z) (preferences : gmap string value)
    (w : world) :
  (exists r w',
      add_to_watchlist ticker user_id now w = (Ok r, w')
      /\ (r = false -> store w' = store w)
      /\ (r = true -> insert_watchlists user_id ticker now (store w) = Ok (store w')))
  /\ (exists r w',
        remove_from_watchlist ticker user_id w = (Ok r, w')
        /\ (r = false -> store w' = store w)
        /\ (r = true -> delete_watchlists user_id ticker (store w) = Ok (store w')))
  /\ (exists r w',
        add_to_search_history ticker user_id now w = (Ok r, w')
        /\ (r = false -> store w' = store w)
        /\ (r = true ->
            insert_search_history user_id ticker now (store w) = Ok (store w')))
  /\ (exists r w',
        update_user_preferences preferences user_id now w = (Ok r, w')
        /\ (r = false -> store w' = store w)
        /\ (r = true ->
            upsert_statement preferences user_id now (store w) (store w)
            = Ok (store w'))).
Proof.
  split; [|split; [|split]].
  - destruct (add_to_watchlist_cases ticker user_id now w)
      as (r & w' & E & [[-> Hs] | (-> & _ & Hi)] & _);
      eexists _, _; (split; [exact E|]); split; intros; congruence.
  - destruct (write_result_cases (delete_watchlists user_id ticker) w)
      as (r & w' & E & [[-> Hs] | [-> Hi]]);
      eexists _, _; (split; [exact E|]); split; intros; congruence.
  - destruct (write_result_cases (insert_search_history user_id ticker now) w)
      as (r & w' & E & [[-> Hs] | [-> Hi]]);
      eexists _, _; (split; [exact E|]); split; intros; congruence.
  - destruct (update_user_preferences_cases preferences user_id now w)
      as (r & w' & E & [[-> Hs] | [-> Hi]] & _);
      eexists _, _; (split; [exact E|]); split; intros; congruence.
Qed.

(** The insert is executed and the commit fails: False, and an empty store
    as before. *)
Lemma writes_are_all_or_nothing_witness :
  exists w',
    add_to_watchlist "AAPL" "default_user" 3
      (mkWorld empty_db empty_db [NoFault; NoFault; NoFault; Broken])
    = (Ok false, w')
    /\ store w' = empty_db.
Proof.
  destruct (proj1 (writes_are_all_or_nothing "AAPL" "default_user" 3 ∅
                     (mkWorld empty_db empty_db [NoFault; NoFault; NoFault; Broken])))
    as (r & w' & E & Hf & _).
  assert (Hr : r = false) by (vm_compute in E; congruence).
  subst r. exists w'. split; [exact E|]. apply Hf. reflexivity.
Defined.

(** *** Stores stay consistent *)

(** X18: every sequence of calls, under any faults, takes a store that
    holds each watchlist pair at most once and meets the constraints of
    [user_preferences] to a store that does so too, and that therefore has
    at most one preferences row per user. *)
Theorem sessions_keep_stores_consistent
    (calls : list (call * list fault)) (d : db) :
  store_inv d ->
  store_inv (session calls d)
  /\ unique_user_id (user_preferences (session calls d)).
Proof.
  intros Hd.
  assert (H : store_inv (session calls d)).
  { revert d Hd. induction calls as [|[c fs] calls IH]; intros d Hd; [exact Hd|].
    cbn [session fold_left fst snd]. apply IH.
    exact (perform_keeps_inv c (mkWorld d d fs) Hd). }
  split; [exact H|]. apply table_ok_unique_user_id, H.
Qed.

(** A session on the empty database: two adds of one pair, the second
    after a failed commit of the first, and a first read of preferences. *)
Lemma sessions_keep_stores_consistent_witness :
  store_inv
    (session [(AddToWatchlist "AAPL" "default_user" 1,
               [NoFault; NoFault; NoFault; Broken]);
              (AddToWatchlist "AAPL" "default_user" 2, []);
              (GetUserPreferences "default_user" 3, [])]
             empty_db).
Proof.
  apply sessions_keep_stores_consistent. split.
  - intros u t. cbn. lia.
  - apply (bool_decide_unpack _). vm_compute. reflexivity.
Defined.

(** *** What a read of the preferences returns *)

(** Every outcome of [get_user_preferences]: the fallback dictionary with
    the store untouched, the stored row with the store untouched, or, for
    a user without a row, [default_prefs] with its row inserted. *)
Lemma get_user_preferences_cases (user_id : string) (now : Z) (w : world) :
  exists g w',
    get_user_preferences user_id now w = (Ok g, w')
    /\ ((g = base_prefs /\ store w' = store w)
        \/ (exists r, head (select_user_preferences user_id (store w)) = Some r
                      /\ g = row_to_dict r /\ store w' = store w)
        \/ (select_user_preferences user_id (store w) = []
            /\ g = default_prefs user_id now
            /\ insert_user_preferences (default_prefs user_id now) now (store w)
               = Ok (store w'))).
Proof.
  unfold get_user_preferences, try_except, get_user_preferences_try,
    with_connection.
  step_storage; [|eexists _, _; split; [reflexivity|left; auto]].
  unfold execute_select, mbind.
  step_storage; [|eexists _, _; split; [reflexivity|left; auto]].
  destruct (select_user_preferences user_id (store w)) as [|r rest] eqn:Es;
    cbn [head].
  2:{ eexists _, _. split; [reflexivity|]. right. left. exists r. auto. }
  unfold execute, commit, mbind.
  step_storage; [|eexists _, _; split; [reflexivity|left; auto]].
  destruct (insert_user_preferences _ now (store w)) as [d'|e] eqn:Ei;
    [|eexists _, _; split; [reflexivity|left; auto]].
  step_storage; eexists _, _; (split; [reflexivity|]).
  - right. right. auto.
  - left. auto.
Qed.

(** X19: whatever the storage does, the dictionary [get_user_preferences]
    returns has the five preference keys the dashboard reads; for a user
    without a stored row their values are the defaults 'AAPL', '1 Year',
    'light', 1 and 1. *)
Theorem preferences_always_readable (user_id : string) (now : Z) (w : world) :
  exists g w',
    get_user_preferences user_id now w = (Ok g, w')
    /\ (forall k,
          k ∈ ["default_ticker"; "default_period"; "theme"; "show_ma50";
               "show_ma200"] ->
          is_Some (g !! k))
    /\ (select_user_preferences user_id (store w) = [] ->
        g !! "default_ticker" = Some (VStr "AAPL")
        /\ g !! "default_period" = Some (VStr "1 Year")
        /\ g !! "theme" = Some (VStr "light")
        /\ g !! "show_ma50" = Some (VInt 1)
        /\ g !! "show_ma200" = Some (VInt 1)).
Proof.
  destruct (get_user_preferences_cases user_id now w)
    as (g & w' & E & [[-> _] | [(r & Hr & -> & _) | (Hn & -> & _)]]);
    eexists _, _; (split; [exact E|]); split.
  - intros k Hk.
    repeat (apply elem_of_cons in Hk as [-> | Hk]; [eexists; reflexivity|]).
    inversion Hk.
  - intros _. repeat split.
  - intros k Hk.
    repeat (apply elem_of_cons in Hk as [-> | Hk];
            [rewrite row_to_dict_lookup by (unfold columns; repeat constructor);
             eauto|]).
    inversion Hk.
  - intros Hn. rewrite Hn in Hr. discriminate.
  - intros k Hk.
    repeat (apply elem_of_cons in Hk as [-> | Hk]; [eexists; reflexivity|]).
    inversion Hk.
  - intros _. repeat split.
Qed.

(** X20: reads that do not write, and the one that does.  [get_watchlist]
    leaves the store as it was and returns the stored tickers of the user,
    or the empty list; [get_user_preferences] leaves the store as it was
    for a user who has a row, and otherwise changes it by nothing but the
    row of defaults it appends for that user. *)
Theorem reads_and_their_writes (user_id : string) (now : Z) (w : world) :
  (exists l w',
      get_watchlist user_id w = (Ok l, w') /\ store w' = store w
      /\ (l = select_watchlist_tickers user_id (store w) \/ l = [])
      /\ (faults w = [] -> l = select_watchlist_tickers user_id (store w)))
  /\ (exists g w',
        get_user_preferences user_id now w = (Ok g, w')
        /\ (select_user_preferences user_id (store w) <> [] ->
            store w' = store w)
        /\ (store w' = store w
            \/ store w'
               = mkDb (watchlists (store w)) (search_history (store w))
                      (user_preferences (store w)
                       ++ [default_row user_id now (store w)]))).
Proof.
  split.
  - destruct (read_cases (select_watchlist_tickers user_id) [] w)
      as (v & w' & E & Hs & Hv & Hh).
    exists v, w'. auto.
  - destruct (get_user_preferences_cases user_id now w)
      as (g & w' & E & [[-> Hs] | [(r & Hr & -> & Hs) | (Hn & -> & Hi)]]);
      eexists _, _; (split; [exact E|]); split; auto.
    + intros Hne. contradiction.
    + right. unfold insert_user_preferences in Hi.
      destruct (decide (known_columns _)); [|discriminate].
      destruct (decide (bindable _)); [|discriminate].
      destruct (decide (table_ok _)); [|discriminate].
      injection Hi as <-. rewrite default_prefs_union. reflexivity.
Qed.

End DatabaseFacts.

(** ** The handlers of app.py *)

Section AppFacts.
Import Database App.
Local Open Scope Z_scope.
Local Open Scope db_scope.

(** *** Recent-search buttons *)

Lemma unique_searches_from_spec (sel : string) (recent : list (string * Z)) :
  forall (seen : gset string) (acc : list string),
    (forall t, t ∈ seen <-> t ∈ acc) -> NoDup acc -> (sel ∉ acc) ->
    exists new,
      unique_searches_from sel seen acc recent = acc ++ new
      /\ NoDup (acc ++ new) /\ (sel ∉ acc ++ new)
      /\ sublist new (map fst recent)
      /\ (forall t, t ∈ map fst recent -> t <> sel -> t ∈ acc ++ new).
Proof.
  induction recent as [|[ticker time] recent IH]; intros seen acc Hseen Hnd Hsel.
  - exists []. rewrite app_nil_r. cbn.
    split; [reflexivity|]. split; [exact Hnd|]. split; [exact Hsel|].
    split; [constructor|]. intros t Ht. inversion Ht.
  - cbn [unique_searches_from map fst].
    destruct (decide ((ticker ∉ seen) /\ ticker <> sel)) as [[Hns Hne]|Hno].
    + destruct (IH ({[ticker]} ∪ seen) (acc ++ [ticker]))
        as (new & E & Hn & Hs & Hsub & Hall).
      * intros t. rewrite elem_of_union, elem_of_singleton, elem_of_app,
          list_elem_of_singleton, Hseen. tauto.
      * apply NoDup_app. split; [exact Hnd|]. split; [|apply NoDup_singleton].
        intros x Hx Hx'. apply list_elem_of_singleton in Hx' as ->.
        apply Hns, Hseen, Hx.
      * rewrite elem_of_app, list_elem_of_singleton. intros [H|H];
          [contradiction|congruence].
      * exists (ticker :: new). rewrite <- app_assoc in E, Hn, Hs, Hall.
        cbn [app] in *.
        split; [exact E|]. split; [exact Hn|]. split; [exact Hs|].
        split; [constructor; exact Hsub|].
        intros t Ht Hts. apply elem_of_cons in Ht as [-> | Ht].
        -- apply elem_of_app. right. left.
        -- apply Hall; assumption.
    + destruct (IH seen acc Hseen Hnd Hsel) as (new & E & Hn & Hs & Hsub & Hall).
      exists new.
      split; [exact E|]. split; [exact Hn|]. split; [exact Hs|].
      split; [constructor; exact Hsub|].
      intros t Ht Hts. apply elem_of_cons in Ht as [-> | Ht];
        [|apply Hall; assumption].
      apply elem_of_app. left. apply Hseen.
      destruct (decide (ticker ∈ seen)) as [|Hn']; [assumption|].
      exfalso. apply Hno. auto.
Qed.

Lemma unique_searches_from_nil (sel : string) (recent : list (string * Z)) :
  exists new,
    unique_searches sel recent = new
    /\ NoDup new /\ (sel ∉ new)
    /\ sublist new (map fst recent)
    /\ (forall t, t ∈ map fst recent -> t <> sel -> t ∈ new).
Proof.
  unfold unique_searches.
  destruct (unique_searches_from_spec sel recent ∅ [])
    as (new & -> & Hn & Hs & Hsub & Hall).
  - intros t. split; intros H; [apply not_elem_of_empty in H|inversion H];
      contradiction.
  - constructor.
  - intros H. inversion H.
  - exists new. cbn [app] in *. auto.
Qed.

Lemma unique_searches_from_snoc (sel : string) (l : list (string * Z))
    (t : string) (time : Z) :
  forall (seen : gset string) (acc : list string),
    (forall x, x ∈ seen <-> x ∈ acc) ->
    unique_searches_from sel seen acc (l ++ [(t, time)])
    = unique_searches_from sel seen acc l
      ++ (if decide ((t ∉ unique_searches_from sel seen acc l) /\ t <> sel)
          then [t] else []).
Proof.
  induction l as [|[x tx] l IH]; intros seen acc Hseen.
  - cbn [app unique_searches_from].
    destruct (decide ((t ∉ seen) /\ t <> sel)) as [[Hn Hne]|Hno];
      destruct (decide ((t ∉ acc) /\ t <> sel)) as [[Hn' Hne']|Hno'].
    + reflexivity.
    + exfalso. apply Hno'. split; [|exact Hne]. intros H. apply Hn, Hseen, H.
    + exfalso. apply Hno. split; [|exact Hne']. intros H. apply Hn', Hseen, H.
    + rewrite app_nil_r. reflexivity.
  - cbn [app unique_searches_from].
    destruct (decide ((x ∉ seen) /\ x <> sel)) as [_|_]; apply IH; [|exact Hseen].
    intros y. rewrite elem_of_union, elem_of_singleton, elem_of_app,
      list_elem_of_singleton, Hseen. tauto.
Qed.

(** X21: the recent-search buttons show every ticker of the recent
    searches other than the selected one, each once, in the order of
    their first occurrence: a search adds its ticker at the end of the
    list when the ticker is not the selected one and no earlier search
    had it, and adds nothing otherwise. *)
Theorem unique_searches_spec (selected_ticker : string)
    (recent_searches : list (string * Z)) :
  NoDup (unique_searches selected_ticker recent_searches)
  /\ (selected_ticker ∉ unique_searches selected_ticker recent_searches)
  /\ sublist (unique_searches selected_ticker recent_searches)
             (map fst recent_searches)
  /\ (forall t,
        t ∈ unique_searches selected_ticker recent_searches
        <-> t ∈ map fst recent_searches /\ t <> selected_ticker)
  /\ unique_searches selected_ticker [] = []
  /\ (forall earlier t time,
        unique_searches selected_ticker (earlier ++ [(t, time)])
        = unique_searches selected_ticker earlier
          ++ (if decide (t = selected_ticker \/ t ∈ map fst earlier)
              then [] else [t])).
Proof.
  assert (Hmem : forall l t,
            t ∈ unique_searches selected_ticker l
            <-> t ∈ map fst l /\ t <> selected_ticker).
  { intros l t.
    destruct (unique_searches_from_nil selected_ticker l)
      as (new & -> & Hn & Hs & Hsub & Hall).
    split.
    - intros Ht. split.
      + apply sublist_subseteq in Hsub. apply Hsub. exact Ht.
      + intros ->. contradiction.
    - intros [Ht Hne]. apply Hall; assumption. }
  split; [|split; [|split; [|split; [exact (Hmem recent_searches)|]]]].
  - destruct (unique_searches_from_nil selected_ticker recent_searches)
      as (new & -> & Hn & _). exact Hn.
  - destruct (unique_searches_from_nil selected_ticker recent_searches)
      as (new & -> & _ & Hs & _). exact Hs.
  - destruct (unique_searches_from_nil selected_ticker recent_searches)
      as (new & -> & _ & _ & Hsub & _). exact Hsub.
  - split; [reflexivity|]. intros earlier t time. unfold unique_searches.
    rewrite unique_searches_from_snoc.
    2:{ intros x. split; intros H; [apply not_elem_of_empty in H|inversion H];
          contradiction. }
    fold (unique_searches selected_ticker earlier). f_equal.
    destruct (decide ((t ∉ unique_searches selected_ticker earlier)
                      /\ t <> selected_ticker)) as [[Hn Hne]|Hno];
      destruct (decide (t = selected_ticker \/ t ∈ map fst earlier))
        as [[He|Hin]|Hno']; try reflexivity.
    + contradiction.
    + exfalso. apply Hn, Hmem. auto.
    + exfalso. apply Hno. split.
      * intros H. apply Hmem in H as [H _]. apply Hno'. right. exact H.
      * intros H. apply Hno'. left. exact H.
Qed.

(** X22: with the limit of 5 that [get_recent_searches] is called with,
    the cut [unique_searches[:6]] never drops a ticker: whatever the
    storage does, the buttons are the unique recent tickers, at most 5. *)
Theorem recent_buttons_are_not_cut (selected_ticker : string) (w : world) :
  exists recent_searches w',
    get_recent_searches USER_ID 5 w = (Ok recent_searches, w')
    /\ recent_buttons selected_ticker w
       = (Ok (unique_searches selected_ticker recent_searches), w')
    /\ (length (unique_searches selected_ticker recent_searches) <= 5)%nat.
Proof.
  destruct (read_cases (select_recent_searches USER_ID 5) [] w)
    as (recent & w' & E & _ & Hv & _).
  change (try_except
            (with_connection (execute_select (select_recent_searches USER_ID 5)))
            (fun _ => ret []) w)
    with (get_recent_searches USER_ID 5 w) in E.
  assert (Hlen : (length recent <= 5)%nat).
  { destruct Hv as [-> | ->]; [|cbn; lia].
    apply (proj1 (proj2 (select_recent_searches_shape USER_ID 5 (store w)))). lia. }
  assert (Hu : (length (unique_searches selected_ticker recent) <= 5)%nat).
  { destruct (unique_searches_from_nil selected_ticker recent)
      as (new & -> & _ & _ & Hsub & _).
    apply sublist_length in Hsub. rewrite length_map in Hsub. lia. }
  exists recent, w'. split; [exact E|]. split; [|exact Hu].
  unfold recent_buttons, mbind. rewrite E. unfold ret.
  rewrite take_ge by lia. reflexivity.
Qed.

(** *** The watchlist of a new session *)

Lemma filter_agree {A} (P Q : A -> Prop) `{!forall x, Decision (P x)}
    `{!forall x, Decision (Q x)} (l : list A) :
  (forall x, x ∈ l -> (P x <-> Q x)) -> filter P l = filter Q l.
Proof.
  induction l as [|x l IH]; intros Hpq; [reflexivity|].
  rewrite (filter_cons P), (filter_cons Q).
  rewrite IH by (intros y Hy; apply Hpq; right; exact Hy).
  destruct (decide (P x)) as [Hp|Hp], (decide (Q x)) as [Hq|Hq];
    try reflexivity; exfalso; [apply Hq|apply Hp]; apply (Hpq x);
    try left; assumption.
Qed.

Lemma NoDup_default_watchlist : NoDup default_watchlist.
Proof. exact (bool_decide_unpack (NoDup default_watchlist) I). Qed.

(** The loop of lines 88-89 on a storage that does not fail: every ticker
    the user's list does not hold yet is appended, in order. *)
Lemma add_all_healthy (times : nat -> Z) (tickers : list string) :
  NoDup tickers ->
  forall (i : nat) (d : db),
    exists d',
      add_all times i tickers (healthy d) = (Ok tt, healthy d')
      /\ select_watchlist_tickers USER_ID d'
         = select_watchlist_tickers USER_ID d
           ++ filter (fun t => t ∉ select_watchlist_tickers USER_ID d) tickers
      /\ search_history d' = search_history d
      /\ user_preferences d' = user_preferences d.
Proof.
  induction 1 as [|t ts Ht Hnd IH]; intros i d.
  - exists d. rewrite filter_nil, app_nil_r. auto.
  - cbn [add_all]. unfold mbind. rewrite add_to_watchlist_healthy.
    destruct (select_watchlist_entry USER_ID t d) as [x|] eqn:Ex.
    + destruct (IH (S i) d) as (d' & E & Ht' & Hs & Hp).
      exists d'. split; [exact E|]. split; [|auto].
      rewrite Ht'. rewrite filter_cons_False; [reflexivity|].
      intros Hn. apply select_watchlist_entry_tickers in Hn. congruence.
    + match goal with
      | |- context [healthy ?d1] =>
          destruct (IH (S i) d1) as (d' & E & Ht' & Hs & Hp)
      end.
      exists d'. split; [exact E|]. split; [|auto].
      rewrite Ht'. unfold select_watchlist_tickers. cbn [watchlists].
      rewrite filter_app, filter_cons_True by reflexivity.
      rewrite (filter_nil (fun r => w_user_id r = USER_ID)), fmap_app.
      cbn [fmap list_fmap w_ticker].
      fold (select_watchlist_tickers USER_ID d).
      rewrite <- app_assoc. cbn [app]. f_equal.
      rewrite (filter_cons_True (fun t0 => t0 ∉ select_watchlist_tickers USER_ID d))
        by (apply select_watchlist_entry_tickers, Ex).
      f_equal. apply filter_agree. intros y Hy.
      rewrite elem_of_app, list_elem_of_singleton. split.
      * intros Hn Hin. apply Hn. left. exact Hin.
      * intros Hn [Hin | ->]; [apply Hn, Hin|contradiction].
Qed.

(** The loop never raises, whatever the storage does. *)
Lemma add_all_total (times : nat -> Z) (tickers : list string) :
  forall (i : nat) (w : world), exists w', add_all times i tickers w = (Ok tt, w').
Proof.
  induction tickers as [|t ts IH]; intros i w; [eexists; reflexivity|].
  cbn [add_all]. unfold mbind.
  destruct (add_to_watchlist_cases t USER_ID (times i) w) as (r & w1 & E & _).
  rewrite E. apply IH.
Qed.

(** X23: the first session on a storage that does not fail and holds no
    watchlist entry of the user stores the five default tickers in their
    order and shows them; every later load reads them back from the store
    and changes nothing. *)
Theorem first_load_seeds_defaults (times : nat -> Z) (d : db) :
  select_watchlist_tickers USER_ID d = [] ->
  exists d',
    load_watchlist times (healthy d) = (Ok default_watchlist, healthy d')
    /\ select_watchlist_tickers USER_ID d' = default_watchlist
    /\ search_history d' = search_history d
    /\ user_preferences d' = user_preferences d
    /\ (forall times',
          load_watchlist times' (healthy d') = (Ok default_watchlist, healthy d')).
Proof.
  intros Hempty.
  destruct (add_all_healthy times default_watchlist NoDup_default_watchlist 0%nat d)
    as (d' & E & Ht & Hs & Hp).
  rewrite Hempty in Ht. cbn [app] in Ht.
  rewrite filter_keeps_all in Ht
    by (apply Forall_forall; intros t _ H; inversion H).
  exists d'. split; [|split; [exact Ht|split; [exact Hs|split; [exact Hp|]]]].
  - unfold load_watchlist, try_except, mbind.
    rewrite get_watchlist_healthy, Hempty, E. reflexivity.
  - intros times'. unfold load_watchlist, try_except, mbind.
    rewrite get_watchlist_healthy, Ht. reflexivity.
Qed.

Lemma first_load_seeds_defaults_witness :
  exists d',
    load_watchlist (fun i => Z.of_nat i) (healthy empty_db)
    = (Ok default_watchlist, healthy d')
    /\ select_watchlist_tickers USER_ID d' = default_watchlist
    /\ search_history d' = search_history empty_db
    /\ user_preferences d' = user_preferences empty_db
    /\ (forall times',
          load_watchlist times' (healthy d') = (Ok default_watchlist, healthy d')).
Proof.
  apply first_load_seeds_defaults. reflexivity.
Defined.

(** X24: a session whose first read of the watchlist fails takes the stored
    list for empty: it shows the defaults and, the storage answering again,
    appends to the user's stored list every default it does not hold yet.
    The stored tickers that are no defaults stay stored and are not
    shown. *)
Theorem failed_read_reseeds_defaults (times : nat -> Z) (d : db) :
  exists d',
    load_watchlist times (mkWorld d d [Broken])
    = (Ok default_watchlist, healthy d')
    /\ select_watchlist_tickers USER_ID d'
       = select_watchlist_tickers USER_ID d
         ++ filter (fun t => t ∉ select_watchlist_tickers USER_ID d)
              default_watchlist.
Proof.
  destruct (add_all_healthy times default_watchlist NoDup_default_watchlist 0%nat d)
    as (d' & E & Ht & _).
  exists d'. split; [|exact Ht].
  unfold load_watchlist, try_except, mbind.
  change (get_watchlist USER_ID (mkWorld d d [Broken])) with (Ok (@nil string), healthy d).
  cbv iota beta. rewrite E. reflexivity.
Qed.

(** X25: whatever the storage does, the session gets a watchlist that is
    not empty: the stored list, read without touching the store, or the
    defaults. *)
Theorem load_watchlist_never_empty (times : nat -> Z) (w : world) :
  exists l w',
    load_watchlist times w = (Ok l, w')
    /\ l <> []
    /\ ((l = select_watchlist_tickers USER_ID (store w) /\ store w' = store w)
        \/ l = default_watchlist).
Proof.
  destruct (read_cases (select_watchlist_tickers USER_ID) [] w)
    as (v & w1 & E & Hst & Hv & _).
  fold (get_watchlist_try USER_ID) in E. fold (get_watchlist USER_ID) in E.
  unfold load_watchlist, try_except, mbind. rewrite E.
  destruct v as [|t v].
  - destruct (add_all_total times default_watchlist 0%nat w1) as (w2 & E2).
    rewrite E2. exists default_watchlist, w2.
    split; [reflexivity|]. split; [discriminate|]. right. reflexivity.
  - exists (t :: v), w1. split; [reflexivity|]. split; [discriminate|].
    left. split; [|exact Hst]. destruct Hv as [Hv|Hv]; [exact Hv|discriminate].
Qed.

(** *** The Add button *)

(** X26: the Add button keeps the session's watchlist free of duplicates and
    never reaches its message that the ticker is already listed; a
    ticker that is not empty, not in the session's list and has recent
    data is appended whether or not the storage took it, and every other
    press leaves list and storage as they were. *)
Theorem add_button_spec (new_ticker : string) (recent_data : result bool)
    (db_connected : bool) (now : Z) (watchlist : list string) (w : world) :
  NoDup watchlist ->
  exists watchlist' msg w',
    add_button new_ticker recent_data db_connected now watchlist w
    = (Ok (watchlist', msg), w')
    /\ NoDup watchlist'
    /\ msg <> AlreadyInWatchlist
    /\ (msg = Added
        <-> new_ticker <> EmptyString /\ (new_ticker ∉ watchlist)
            /\ recent_data = Ok true)
    /\ (msg = Added -> watchlist' = watchlist ++ [new_ticker])
    /\ (msg <> Added -> watchlist' = watchlist /\ w' = w)
    /\ (db_connected = false -> w' = w).
Proof.
  intros Hnd. unfold add_button.
  destruct (String.eqb new_ticker EmptyString) eqn:Ee; cbn [negb andb].
  { apply String.eqb_eq in Ee.
    exists watchlist, NoMessage, w. split; [reflexivity|].
    split; [exact Hnd|]. split; [discriminate|].
    split; [split; [discriminate|intros [H _]; contradiction]|].
    split; [discriminate|]. auto. }
  apply String.eqb_neq in Ee.
  destruct (bool_decide (new_ticker ∉ watchlist)) eqn:Eb.
  2:{ apply bool_decide_eq_false in Eb.
      exists watchlist, NoMessage, w. split; [reflexivity|].
      split; [exact Hnd|]. split; [discriminate|].
      split; [split; [discriminate|intros (_ & H & _); contradiction]|].
      split; [discriminate|]. auto. }
  apply bool_decide_eq_true in Eb.
  destruct recent_data as [[|]|e].
  - assert (Hnd' : NoDup (watchlist ++ [new_ticker])).
    { apply NoDup_app. split; [exact Hnd|]. split; [|apply NoDup_singleton].
      intros x Hx Hx'. apply list_elem_of_singleton in Hx' as ->. contradiction. }
    destruct db_connected.
    + destruct (add_to_watchlist_cases new_ticker USER_ID now w)
        as (r & w1 & E & _).
      exists (watchlist ++ [new_ticker]), Added, w1.
      unfold mbind, try_except. rewrite E.
      rewrite orb_true_r. split; [reflexivity|].
      split; [exact Hnd'|]. split; [discriminate|].
      split; [split; auto|]. split; [auto|].
      split; [intros H; contradiction|discriminate].
    + exists (watchlist ++ [new_ticker]), Added, w.
      unfold mbind, ret. rewrite orb_true_r. split; [reflexivity|].
      split; [exact Hnd'|]. split; [discriminate|].
      split; [split; auto|]. split; [auto|].
      split; [intros H; contradiction|auto].
  - exists watchlist, InvalidTicker, w. split; [reflexivity|].
    split; [exact Hnd|]. split; [discriminate|].
    split; [split; [discriminate|intros (_ & _ & H); discriminate]|].
    split; [discriminate|]. auto.
  - exists watchlist, ErrorAdding, w. split; [reflexivity|].
    split; [exact Hnd|]. split; [discriminate|].
    split; [split; [discriminate|intros (_ & _ & H); discriminate]|].
    split; [discriminate|]. auto.
Qed.

Lemma add_button_spec_witness :
  exists watchlist' msg w',
    add_button "TSLA" (Ok true) true 7 default_watchlist (healthy empty_db)
    = (Ok (watchlist', msg), w')
    /\ NoDup watchlist'
    /\ msg <> AlreadyInWatchlist
    /\ (msg = Added
        <-> "TSLA" <> EmptyString /\ ("TSLA" ∉ default_watchlist)
            /\ Ok true = Ok true)
    /\ (msg = Added -> watchlist' = default_watchlist ++ ["TSLA"])
    /\ (msg <> Added -> watchlist' = default_watchlist /\ w' = healthy empty_db)
    /\ (true = false -> w' = healthy empty_db).
Proof.
  apply add_button_spec. exact (bool_decide_unpack (NoDup default_watchlist) I).
Defined.

End AppFacts.
